(** * Multi-stage retrieval funnel of the CUAD contract search backend

    A shallow embedding of the serving core of [backend/app]:
    - [infrastructure/vector_store/qdrant_client.py] (class
      [AdvancedQdrantService]): the filter compiler, the coarse-to-fine
      funnel, its single-stage fallback, point lookup and collection info;
    - [infrastructure/embeddings/embedding_service.py] (class
      [FastEmbedService]): text cleaning, chunking, the multi-vector and the
      byte-vector representations;
    - [presentation/api/legal_search_routes.py]: the health endpoint;
    - [domain/legal_search/search_orchestrator.py]: the result conversion.

    The vector index and the embedding models are collaborators: they enter
    as records of functions whose calls either return or raise. *)

From Stdlib Require Import List String Ascii Bool ZArith Lia PeanoNat.
From Stdlib Require Import PrimFloat.
Import ListNotations.
Open Scope string_scope.
Open Scope Z_scope.
Open Scope list_scope.

Set Implicit Arguments.

(** ** Python values the code relies on *)

Module Py.

(** Exception classes the code can meet.  [ResponseHandlingException] is what
    the index client raises when the server cannot be reached;
    [UnexpectedResponse] is an error answer of a reachable server. *)
Inductive ExcKind :=
| ResponseHandlingException
| UnexpectedResponse
| TimeoutError
| ValidationError
| IndexError
| ValueError
| RuntimeError.

Record Exc := mkExc { exc_kind : ExcKind; exc_msg : string }.

(** [str(e)] *)
Definition str_of_exc (e : Exc) : string := exc_msg e.

(** Connectivity-level failures, as opposed to query-level ones. *)
Definition is_connectivity (e : Exc) : bool :=
  match exc_kind e with
  | ResponseHandlingException => true
  | _ => false
  end.

(** A call returns a value or raises. *)
Inductive Result (A : Type) :=
| Ok (a : A)
| Raise (e : Exc).
Arguments Ok {A} a.
Arguments Raise {A} e.

Definition bind {A B} (r : Result A) (k : A -> Result B) : Result B :=
  match r with
  | Ok a => k a
  | Raise e => Raise e
  end.

(** [try: body / except Exception: handler] *)
Definition try_except {A} (body : Result A) (handler : Exc -> Result A) : Result A :=
  match body with
  | Ok a => Ok a
  | Raise e => handler e
  end.

(** A [dict] with string keys, in insertion order. *)
Definition Dict (V : Type) := list (string * V).

Fixpoint get {V} (d : Dict V) (k : string) : option V :=
  match d with
  | [] => None
  | (k', v) :: d' => if String.eqb k k' then Some v else get d' k
  end.

(** [d[k] = v]: an existing key keeps its position. *)
Fixpoint set {V} (d : Dict V) (k : string) (v : V) : Dict V :=
  match d with
  | [] => [(k, v)]
  | (k', v') :: d' =>
      if String.eqb k k' then (k', v) :: d' else (k', v') :: set d' k v
  end.

(** [k in d] *)
Definition contains {V} (d : Dict V) (k : string) : bool :=
  match get d k with Some _ => true | None => false end.

(** [list(d.values())] *)
Definition values {V} (d : Dict V) : list V := map snd d.

(** [text] values are sequences of characters below code point 256. *)
Definition text := list ascii.

End Py.

Import Py.

Notation "x <- r ;; k" := (Py.bind r (fun x => k))
  (at level 61, r at next level, right associativity).

(** ** Data of a request *)

(** The value stored under a key of the [filters] mapping ([Dict[str, Any]]). *)
Inductive FilterValue :=
| FNone
| FStr (s : string)
| FList (l : list string).

(** Python truth value of a filter entry. *)
Definition fv_truthy (v : FilterValue) : bool :=
  match v with
  | FNone => false
  | FStr s => negb (String.eqb s "")
  | FList l => negb (Nat.eqb (List.length l) 0)
  end.

Definition FilterSpec := Dict FilterValue.

(** One representation of a query.  Dense vectors are lists of floats, the
    multi-vector is a list of them, the byte vector a list of integers. *)
Inductive Embedding :=
| Floats (v : list float)
| MultiVector (vs : list (list float))
| Bytes (bs : list Z).

(** Python truth value of a representation: a list is true when non-empty. *)
Definition emb_truthy (e : Embedding) : bool :=
  match e with
  | Floats v => negb (Nat.eqb (List.length v) 0)
  | MultiVector vs => negb (Nat.eqb (List.length vs) 0)
  | Bytes bs => negb (Nat.eqb (List.length bs) 0)
  end.

Definition QueryEmbeddings := Dict Embedding.

(** Values of a stored payload. *)
Inductive PayloadValue :=
| PNone
| PStr (s : string)
| PInt (z : Z)
| PFloat (f : float).

Definition Payload := Dict PayloadValue.

(** ** The index client's models ([qdrant_client.models])

    The models validate their fields when they are built.  The code builds
    [MatchValue], [MatchAny], [FieldCondition], [Filter] and [Prefetch] from
    values of the field's type; [Range] and [PointStruct] receive values read
    from the request and from the cases, and can refuse them. *)

Module Models.

Inductive Match :=
| MatchValue (value : string)
| MatchAny (any : list string).

(** [Range]: its bounds are floats; only the keys put into the [date_range]
    dict are set. *)
Record Range := mkRange { gte : option float; lte : option float }.

Record FieldCondition := mkFieldCondition {
  key : string;
  match_ : option Match;
  range : option Range
}.

Record Filter := mkFilter { must : list FieldCondition }.

#[local] Unset Elimination Schemes.
Inductive Prefetch := mkPrefetch {
  pf_prefetch : option Prefetch;
  pf_query : option Embedding;
  pf_using : string;
  pf_limit : Z;
  pf_filter : option Filter
}.
#[local] Set Elimination Schemes.

(** Keyword arguments of [client.query_points]. *)
Record QueryRequest := mkQueryRequest {
  qr_collection_name : string;
  qr_prefetch : Prefetch;
  qr_query : option Embedding;
  qr_using : string;
  qr_query_filter : option Filter;
  qr_limit : Z;
  qr_with_payload : bool
}.

(** Keyword arguments of [client.search]. *)
Record SearchRequest := mkSearchRequest {
  sr_collection_name : string;
  sr_query_vector : Embedding;
  sr_query_filter : option Filter;
  sr_limit : Z;
  sr_score_threshold : option float;
  sr_with_payload : bool
}.

(** A raw hit: id, payload and score.  Every call below asks for
    [with_payload=True], so a hit carries its payload. *)
Record ScoredPoint := mkScoredPoint {
  sp_id : string;
  sp_payload : Payload;
  sp_score : float
}.

Record Record_ := mkRecord { rec_id : string; rec_payload : Payload }.

Record CollectionInfo := mkCollectionInfo {
  ci_status : string;
  ci_points_count : Z;
  ci_vectors_count : Z
}.

(** The methods of [QdrantClient] the service calls. *)
Record QdrantClient := mkQdrantClient {
  query_points : QueryRequest -> Result (list ScoredPoint);
  search : SearchRequest -> Result (list ScoredPoint);
  retrieve : string -> list string -> bool -> Result (list Record_);
  get_collection : string -> Result CollectionInfo
}.

(** [VectorParams] of one named vector. *)
Record VectorParams := mkVectorParams {
  vp_size : Z;
  vp_distance : string;
  vp_multivector_comparator : option string;
  vp_datatype : option string
}.

Record PointStruct := mkPointStruct {
  ps_id : PayloadValue;
  ps_vector : Dict Embedding;
  ps_payload : Payload
}.

(** The writing methods of [QdrantClient].  A call answers from its
    arguments; what a method did shows in the log of calls. *)
Record QdrantAdmin := mkQdrantAdmin {
  get_collections : Result (list string);
  create_collection : string -> Dict VectorParams -> Result unit;
  create_payload_index : string -> string -> string -> Result unit;
  upsert : string -> list PointStruct -> Result unit
}.

Inductive Call :=
| CallGetCollections
| CallCreateCollection (name : string) (vectors_config : Dict VectorParams)
| CallCreatePayloadIndex (name field_name field_schema : string)
| CallUpsert (name : string) (points : list PointStruct).

End Models.

Import Models.

(** ** [app/infrastructure/configuration.py] *)

Module settings.
Definition app_version : string := "2.0.0".
Definition qdrant_collection_name : string := "cuad_contracts_v2".
(** [similarity_threshold: float = 0.3], as the binary64 value nearest to 0.3. *)
Definition similarity_threshold : float := 0x1.3333333333333p-2%float.
End settings.

(** ** [AdvancedQdrantService] *)

Module AdvancedQdrantService.

Definition collection_name : string := settings.qdrant_collection_name.

Definition filterable_fields : list string :=
  [ "jurisdiction"; "court_level"; "case_type"; "industry";
    "company_size"; "contract_status"; "complexity_level";
    "risk_level"; "renewal_terms" ].

(** [filters.get(field)] as a truth value. *)
Definition get_truthy (filters : FilterSpec) (field : string) : bool :=
  match get filters field with
  | Some v => fv_truthy v
  | None => false
  end.

(** Body of the [for field in filterable_fields] loop: the conditions the
    iteration for [field] appends. *)
Definition field_conditions (filters : FilterSpec) (field : string)
  : list FieldCondition :=
  if get_truthy filters field then
    match get filters field with
    | Some (FList field_values) =>
        if (0 <? List.length field_values)%nat then
          if (List.length field_values =? 1)%nat then
            [ mkFieldCondition field
                (Some (MatchValue (nth 0 field_values ""))) None ]
          else
            [ mkFieldCondition field (Some (MatchAny field_values)) None ]
        else []
    | _ => []
    end
  else [].

(** The error [Range] raises for a bound it cannot read as a float. *)
Definition validation_error : Exc :=
  mkExc ValidationError "validation error for Range".

Section Library.

(** How the models read a string given for a float field: the float, or
    [None] when the string is refused.  The reading is the library's. *)
Variable float_of_str : string -> option float.

(** Validation of one bound given to [Range]. *)
Definition range_bound (v : option FilterValue) : Result (option float) :=
  match v with
  | None => Ok None
  | Some FNone => Ok None
  | Some (FStr s) =>
      match float_of_str s with
      | Some f => Ok (Some f)
      | None => Raise validation_error
      end
  | Some (FList _) => Raise validation_error
  end.

(** The date-range block. *)
Definition date_conditions (filters : FilterSpec)
  : Result (list FieldCondition) :=
  if get_truthy filters "date_from" || get_truthy filters "date_to" then
    let date_gte :=
      if get_truthy filters "date_from" then get filters "date_from" else None in
    let date_lte :=
      if get_truthy filters "date_to" then get filters "date_to" else None in
    gte <- range_bound date_gte ;;
    lte <- range_bound date_lte ;;
    Ok [ mkFieldCondition "date_filed" None (Some (mkRange gte lte)) ]
  else Ok [].

Definition _build_filter (filters : FilterSpec) : Result (option Filter) :=
  let conditions :=
    fold_left (fun conditions field => conditions ++ field_conditions filters field)
              filterable_fields [] in
  date <- date_conditions filters ;;
  let conditions := conditions ++ date in
  match conditions with
  | [] => Ok None
  | _ => Ok (Some (mkFilter conditions))
  end.

(** [self._build_filter(filters) if filters else None], the first statement
    of both search methods; [filters] is [Optional[Dict]]. *)
Definition compile (filters : option FilterSpec) : Result (option Filter) :=
  match filters with
  | None => Ok None
  | Some [] => Ok None
  | Some d => _build_filter d
  end.

(** The arguments of the [client.query_points] call that the three stages of
    [advanced_search] build (lines 188-226). *)
Definition funnel_request (query_embeddings : QueryEmbeddings)
  (qdrant_filter : option Filter) (limit prefetch_limit rerank_limit : Z)
  : QueryRequest :=
  (* Stage 1: query_embeddings.get('byte', query_embeddings.get('dense')) *)
  let prefetch_stage :=
    mkPrefetch None
      (match get query_embeddings "byte" with
       | Some b => Some b
       | None => get query_embeddings "dense"
       end)
      "byte" prefetch_limit qdrant_filter in
  (* Stage 2 *)
  let rerank_stage :=
    match get query_embeddings "rerank" with
    | Some r => mkPrefetch (Some prefetch_stage) (Some r) "rerank" rerank_limit None
    | None => prefetch_stage
    end in
  (* Stage 3 *)
  match get query_embeddings "colbert" with
  | Some c =>
      mkQueryRequest collection_name rerank_stage (Some c) "colbert" None limit true
  | None =>
      mkQueryRequest collection_name rerank_stage
        (get query_embeddings "dense") "dense" None limit true
  end.

(** The formatting loop shared by both search methods:
    [case_data = result.payload; case_data['score'] = result.score]. *)
Definition format_results (points : list ScoredPoint) : list Payload :=
  map (fun result => set (sp_payload result) "score" (PFloat (sp_score result)))
      points.

(** [query_embeddings.get(k)] when it is true, for the [or] chain. *)
Definition get_true (query_embeddings : QueryEmbeddings) (k : string)
  : option Embedding :=
  match get query_embeddings k with
  | Some v => if emb_truthy v then Some v else None
  | None => None
  end.

(** [get('dense') or get('rerank') or list(values())[0]] *)
Definition fallback_query_vector (query_embeddings : QueryEmbeddings)
  : Result Embedding :=
  match get_true query_embeddings "dense" with
  | Some v => Ok v
  | None =>
      match get_true query_embeddings "rerank" with
      | Some v => Ok v
      | None =>
          match values query_embeddings with
          | v :: _ => Ok v
          | [] => Raise (mkExc IndexError "list index out of range")
          end
      end
  end.

(** The [try] block of [_fallback_search]. *)
Definition fallback_body (client : QdrantClient)
  (query_embeddings : QueryEmbeddings) (filters : option FilterSpec) (limit : Z)
  : Result (list Payload) :=
  qdrant_filter <- compile filters ;;
  query_vector <- fallback_query_vector query_embeddings ;;
  search_result <- search client
    (mkSearchRequest collection_name query_vector qdrant_filter limit
       (Some settings.similarity_threshold) true) ;;
  Ok (format_results search_result).

Definition _fallback_search (client : QdrantClient)
  (query_embeddings : QueryEmbeddings) (filters : option FilterSpec) (limit : Z)
  : Result (list Payload) :=
  try_except (fallback_body client query_embeddings filters limit)
             (fun _ => Ok []).

(** The [try] block of [advanced_search]. *)
Definition funnel_body (client : QdrantClient)
  (query_embeddings : QueryEmbeddings) (filters : option FilterSpec)
  (limit prefetch_limit rerank_limit : Z) : Result (list Payload) :=
  qdrant_filter <- compile filters ;;
  search_result <- query_points client
    (funnel_request query_embeddings qdrant_filter limit prefetch_limit
       rerank_limit) ;;
  Ok (format_results search_result).

Definition advanced_search (client : QdrantClient)
  (query_embeddings : QueryEmbeddings) (filters : option FilterSpec)
  (limit prefetch_limit rerank_limit : Z) : Result (list Payload) :=
  try_except
    (funnel_body client query_embeddings filters limit prefetch_limit rerank_limit)
    (fun _ => _fallback_search client query_embeddings filters limit).

End Library.

Definition get_case_by_id (client : QdrantClient) (case_id : string)
  : Result (option Payload) :=
  try_except
    (result <- retrieve client collection_name [case_id] true ;;
     match result with
     | r :: _ => Ok (Some (rec_payload r))
     | [] => Ok None
     end)
    (fun _ => Ok None).

(** Values of the dict [get_collection_info] returns. *)
Inductive InfoValue :=
| IStr (s : string)
| IInt (z : Z)
| IConfig (vector_configs : Dict Z) (distance : string).

Definition vector_configs : Dict Z :=
  [ ("dense", 384); ("rerank", 768); ("colbert", 384); ("byte", 384) ].

Definition get_collection_info (client : QdrantClient)
  : Result (Dict InfoValue) :=
  try_except
    (info <- get_collection client collection_name ;;
     Ok [ ("status", IStr (ci_status info));
          ("points_count", IInt (ci_points_count info));
          ("vectors_count", IInt (ci_vectors_count info));
          ("config", IConfig vector_configs "COSINE") ])
    (fun e => Ok [ ("status", IStr "error"); ("error", IStr (str_of_exc e)) ]).

(** *** Collection set-up and ingestion *)

Definition vector_size (kind : string) : Z :=
  match get vector_configs kind with Some n => n | None => 0 end.

(** [vectors_config] of [initialize_collection]. *)
Definition vectors_config : Dict VectorParams :=
  [ ("dense", mkVectorParams (vector_size "dense") "Cosine" None None);
    ("rerank", mkVectorParams (vector_size "rerank") "Cosine" None None);
    ("colbert",
     mkVectorParams (vector_size "colbert") "Cosine" (Some "max_sim") None);
    ("byte", mkVectorParams (vector_size "byte") "Cosine" None (Some "uint8")) ].

Definition filter_fields : list string :=
  [ "jurisdiction"; "court_level"; "case_type"; "industry";
    "company_size"; "contract_status"; "complexity_level";
    "risk_level"; "renewal_terms"; "contract_start_date";
    "contract_end_date"; "date_filed" ].

(** [_create_filter_indexes]: the calls made, in order.  A failing call is
    logged at debug level and the loop goes on; the method returns [None]. *)
Definition _create_filter_indexes (admin : QdrantAdmin) : list Call :=
  fold_left
    (fun calls field =>
       match create_payload_index admin collection_name field "keyword" with
       | Ok _ | Raise _ =>
           calls ++ [CallCreatePayloadIndex collection_name field "keyword"]
       end)
    filter_fields [].

(** [initialize_collection]: the calls made and the outcome; the [except]
    clause logs and raises again. *)
Definition initialize_collection (admin : QdrantAdmin)
  : list Call * Result unit :=
  match get_collections admin with
  | Raise e => ([CallGetCollections], Raise e)
  | Ok collection_names =>
      if existsb (String.eqb collection_name) collection_names then
        ([CallGetCollections], Ok tt)
      else
        match create_collection admin collection_name vectors_config with
        | Raise e =>
            ([CallGetCollections;
              CallCreateCollection collection_name vectors_config], Raise e)
        | Ok _ =>
            (CallGetCollections
               :: CallCreateCollection collection_name vectors_config
               :: _create_filter_indexes admin, Ok tt)
        end
  end.

(** The vectors of the point at global position [k]: for each kind, in the
    order of the source, [embeddings[kind][k]] when the kind is a key and
    [k] is within its list. *)
Definition point_vectors (embeddings : Dict (list Embedding)) (k : nat)
  : Dict Embedding :=
  fold_left
    (fun vectors kind =>
       match get embeddings kind with
       | Some per_case =>
           match nth_error per_case k with
           | Some v => set vectors kind v
           | None => vectors
           end
       | None => vectors
       end)
    ["dense"; "rerank"; "colbert"; "byte"] [].

(** [case.get('id', str(uuid.uuid4()))]; [uuid4 k] is the identifier drawn
    for the case at position [k]. *)
Definition case_id_of (uuid4 : nat -> string) (k : nat) (case : Payload)
  : PayloadValue :=
  match get case "id" with
  | Some v => v
  | None => PStr (uuid4 k)
  end.

(** [PointStruct] takes an int or a str as id and refuses any other value. *)
Definition valid_point_id (v : PayloadValue) : bool :=
  match v with
  | PStr _ | PInt _ => true
  | PNone | PFloat _ => false
  end.

Definition point_id_error : Exc :=
  mkExc ValidationError "validation error for PointStruct".

(** The fields given to [PointStruct] for the case at position [k]. *)
Definition point_of (uuid4 : nat -> string)
  (embeddings : Dict (list Embedding)) (k : nat) (case : Payload)
  : PointStruct :=
  mkPointStruct (case_id_of uuid4 k case) (point_vectors embeddings k) case.

(** [PointStruct(id=case_id, vector=vectors, payload=case)] *)
Definition build_point (uuid4 : nat -> string)
  (embeddings : Dict (list Embedding)) (k : nat) (case : Payload)
  : Result PointStruct :=
  if valid_point_id (case_id_of uuid4 k case)
  then Ok (point_of uuid4 embeddings k case)
  else Raise point_id_error.

(** The points of [enumerate(batch_cases)], the first at position [k]; the
    first case whose point is refused ends the loop. *)
Fixpoint batch_points (uuid4 : nat -> string)
  (embeddings : Dict (list Embedding)) (k : nat) (batch_cases : list Payload)
  : Result (list PointStruct) :=
  match batch_cases with
  | [] => Ok []
  | case :: rest =>
      point <- build_point uuid4 embeddings k case ;;
      points <- batch_points uuid4 embeddings (S k) rest ;;
      Ok (point :: points)
  end.

Definition batch_size : nat := 10.

(** [range(0, n, batch_size)] *)
Definition batch_starts (n : nat) : list nat :=
  map (fun b => (b * batch_size)%nat) (seq 0 ((n + (batch_size - 1)) / batch_size)).

(** The loop over the batches: a point that is refused or an [upsert] that
    raises ends the method. *)
Fixpoint upload_batches (admin : QdrantAdmin) (uuid4 : nat -> string)
  (embeddings : Dict (list Embedding)) (cases : list Payload)
  (starts : list nat) : list Call * Result unit :=
  match starts with
  | [] => ([], Ok tt)
  | i :: later =>
      match batch_points uuid4 embeddings i
              (firstn batch_size (skipn i cases)) with
      | Raise e => ([], Raise e)
      | Ok points =>
          match upsert admin collection_name points with
          | Raise e => ([CallUpsert collection_name points], Raise e)
          | Ok _ =>
              let '(calls, outcome) :=
                upload_batches admin uuid4 embeddings cases later in
              (CallUpsert collection_name points :: calls, outcome)
          end
      end
  end.

Definition add_multi_vector_points (admin : QdrantAdmin)
  (uuid4 : nat -> string) (cases : list Payload)
  (embeddings : Dict (list Embedding)) : list Call * Result unit :=
  upload_batches admin uuid4 embeddings cases
                 (batch_starts (List.length cases)).

End AdvancedQdrantService.

(** ** [legal_search_routes.py]: the health endpoint *)

Module Routes.

Record HealthResponse := mkHealthResponse {
  status : string;
  timestamp : Z;
  version : string;
  qdrant_status : string
}.

(** [qdrant_info.get("status") == "green"] *)
Definition status_is_green (qdrant_info : Dict AdvancedQdrantService.InfoValue)
  : bool :=
  match get qdrant_info "status" with
  | Some (AdvancedQdrantService.IStr s) => String.eqb s "green"
  | _ => false
  end.

(** [health_check]; [now] is the reading of [datetime.now()]. *)
Definition health_check (client : QdrantClient) (now : Z) : HealthResponse :=
  match AdvancedQdrantService.get_collection_info client with
  | Ok qdrant_info =>
      let qdrant_status :=
        if status_is_green qdrant_info then "healthy" else "unhealthy" in
      mkHealthResponse "healthy" now settings.app_version qdrant_status
  | Raise _ =>
      mkHealthResponse "unhealthy" now settings.app_version "error"
  end.

End Routes.

(** ** [FastEmbedService] *)

Module FastEmbedService.

(** The three embedding models: [list(model.embed([text]))[0].tolist()]. *)
Record EmbeddingModels := mkEmbeddingModels {
  dense_model : text -> Result (list float);
  rerank_model : text -> Result (list float);
  colbert_model : text -> Result (list float)
}.

(** [str.isspace] on code points below 256. *)
Definition isspace (c : ascii) : bool :=
  let n := nat_of_ascii c in
  ((9 <=? n) && (n <=? 13) || (28 <=? n) && (n <=? 32)
   || (n =? 133) || (n =? 160))%nat.

(** [text.split()]: maximal runs of non-space characters; [word] holds the
    run being read, last character first. *)
Fixpoint split_from (s : text) (word : text) : list text :=
  match s with
  | [] => match word with [] => [] | _ => [rev word] end
  | c :: s' =>
      if isspace c then
        match word with
        | [] => split_from s' []
        | _ => rev word :: split_from s' []
        end
      else split_from s' (c :: word)
  end.

Definition split (s : text) : list text := split_from s [].

(** [" ".join(words)] *)
Fixpoint join (words : list text) : text :=
  match words with
  | [] => []
  | [w] => w
  | w :: ws => w ++ " "%char :: join ws
  end.

(** [chunk.strip()] *)
Fixpoint lstrip (s : text) : text :=
  match s with
  | c :: s' => if isspace c then lstrip s' else s
  | [] => []
  end.

Definition strip (s : text) : text := rev (lstrip (rev (lstrip s))).

Definition max_chars : nat := 2000.

Definition _clean_text (t : text) : text :=
  match t with
  | [] => []
  | _ =>
      let t := join (split t) in
      if (max_chars <? List.length t)%nat
      then firstn max_chars t ++ list_ascii_of_string "..."
      else t
  end.

(** State of the loop of [_chunk_text]. *)
Record ChunkState := mkChunkState {
  chunks : list text;
  current_chunk : list text;
  current_length : nat
}.

Definition chunk_step (max_chunk_size : nat) (st : ChunkState) (word : text)
  : ChunkState :=
  if ((max_chunk_size <? current_length st + List.length word + 1)%nat
      && negb (Nat.eqb (List.length (current_chunk st)) 0))
  then mkChunkState (chunks st ++ [join (current_chunk st)]) [word]
                    (List.length word)
  else mkChunkState (chunks st) (current_chunk st ++ [word])
                    (current_length st + List.length word + 1).

Definition _chunk_text (t : text) (max_chunk_size : nat) : list text :=
  let words := split t in
  let st := fold_left (chunk_step max_chunk_size) words (mkChunkState [] [] 0) in
  match current_chunk st with
  | [] => chunks st
  | _ => chunks st ++ [join (current_chunk st)]
  end.

Definition get_dense_embedding (m : EmbeddingModels) (t : text)
  : Result (list float) :=
  dense_model m (_clean_text t).

Definition get_rerank_embedding (m : EmbeddingModels) (t : text)
  : Result (list float) :=
  rerank_model m (_clean_text t).

(** The loop [for chunk in chunks[:8]] of [get_colbert_embeddings]. *)
Fixpoint embed_chunks (m : EmbeddingModels) (chunks : list text)
  (multi_vectors : list (list float)) : Result (list (list float)) :=
  match chunks with
  | [] => Ok multi_vectors
  | chunk :: rest =>
      match strip chunk with
      | [] => embed_chunks m rest multi_vectors
      | _ =>
          v <- colbert_model m chunk ;;
          embed_chunks m rest (multi_vectors ++ [v])
      end
  end.

(** The number of vectors kept per text. *)
Definition K : nat := 8.

Definition get_colbert_embeddings (m : EmbeddingModels) (t : text)
  : Result (list (list float)) :=
  let cleaned_text := _clean_text t in
  let chunks := _chunk_text cleaned_text 200 in
  multi_vectors <- embed_chunks m (firstn K chunks) [] ;;
  match multi_vectors with
  | [] =>
      v <- colbert_model m cleaned_text ;;
      Ok [v]
  | _ => Ok multi_vectors
  end.

(** *** NumPy operations of [get_byte_vector] *)

(** Minimum and maximum of two floats as [ndarray.min] and [ndarray.max]
    reduce: a NaN operand wins. *)
Definition np_minimum (a b : float) : float :=
  if is_nan a then a else if is_nan b then b
  else if (b <? a)%float then b else a.

Definition np_maximum (a b : float) : float :=
  if is_nan a then a else if is_nan b then b
  else if (a <? b)%float then b else a.

Definition zero_size (op : string) : Exc :=
  mkExc ValueError
    ("zero-size array to reduction operation " ++ op ++ " which has no identity").

Definition np_min (a : list float) : Result float :=
  match a with
  | [] => Raise (zero_size "minimum")
  | x :: xs => Ok (fold_left np_minimum xs x)
  end.

Definition np_max (a : list float) : Result float :=
  match a with
  | [] => Raise (zero_size "maximum")
  | x :: xs => Ok (fold_left np_maximum xs x)
  end.

(** The integer [k] in [from, from + n) with [k <= x < k + 1], searched
    upwards; [kf] is [k] as a float. *)
Fixpoint trunc_search (n : nat) (k : Z) (kf : float) (x : float) : option Z :=
  match n with
  | O => None
  | S n' =>
      if (x <? kf + 1)%float then Some k
      else trunc_search n' (k + 1) (kf + 1)%float x
  end.

(** [astype(np.uint8)] on one component: truncation towards zero where the
    truncated value is a [uint8].  For NaN, the infinities and the values
    outside (-1, 256) the conversion has no defined result (NumPy warns
    "invalid value encountered in cast"): [None]. *)
Definition astype_uint8 (x : float) : option Z :=
  if is_nan x then None
  else if (x <=? -1)%float then None
  else if (x <? 0)%float then Some 0
  else trunc_search 256 0 0%float x.

(** Lines 92-98, on the dense vector. *)
Definition normalize (dense_array : list float) : Result (list float) :=
  lo <- np_min dense_array ;;
  hi <- np_max dense_array ;;
  Ok (map (fun x => ((x - lo) / (hi - lo))%float) dense_array).

Definition quantize (dense_embedding : list float) : Result (list (option Z)) :=
  normalized <- normalize dense_embedding ;;
  Ok (map (fun x => astype_uint8 (x * 255)%float) normalized).

Definition get_byte_vector (m : EmbeddingModels) (t : text)
  : Result (list (option Z)) :=
  dense_embedding <- get_dense_embedding m t ;;
  quantize dense_embedding.

(** The bundle [get_all_embeddings] returns, under its four keys. *)
Inductive Representation :=
| RDense (v : list float)
| RMulti (vs : list (list float))
| RByte (bs : list (option Z)).

Definition get_all_embeddings (m : EmbeddingModels) (t : text)
  : Result (Dict Representation) :=
  dense <- get_dense_embedding m t ;;
  rerank <- get_rerank_embedding m t ;;
  colbert <- get_colbert_embeddings m t ;;
  byte <- get_byte_vector m t ;;
  Ok (set (set (set (set [] "dense" (RDense dense)) "rerank" (RDense rerank))
               "colbert" (RMulti colbert)) "byte" (RByte byte)).

(** [list(model.embed(cleaned_texts))]: one vector per text, in order; the
    first text the model fails on raises. *)
Fixpoint embed_all (model : text -> Result (list float)) (texts : list text)
  : Result (list (list float)) :=
  match texts with
  | [] => Ok []
  | t :: rest =>
      v <- model t ;;
      vs <- embed_all model rest ;;
      Ok (v :: vs)
  end.

Definition get_batch_embeddings (m : EmbeddingModels) (texts : list text)
  (embedding_type : string) : Result (list (list float)) :=
  let cleaned_texts := map _clean_text texts in
  if String.eqb embedding_type "dense" then
    embed_all (dense_model m) cleaned_texts
  else if String.eqb embedding_type "rerank" then
    embed_all (rerank_model m) cleaned_texts
  else if String.eqb embedding_type "colbert" then
    embed_all (colbert_model m) cleaned_texts
  else
    Raise (mkExc ValueError ("Unknown embedding type: " ++ embedding_type)).

End FastEmbedService.

(** ** [SearchOrchestrator]: the result conversion *)

Module SearchOrchestrator.

(** [LegalCase] of [schemas.py]. *)
Record LegalCase := mkLegalCase {
  id : string;
  case_name : string;
  citation : option string;
  court : option string;
  jurisdiction : option string;
  date_filed : option string;
  case_type : option string;
  summary : option string;
  full_text : option string;
  url : option string;
  score : option float;
  industry : option string;
  company_size : option string;
  contract_status : option string;
  estimated_value : option string;
  complexity_level : option string;
  risk_level : option string;
  renewal_terms : option string;
  contract_start_date : option string;
  contract_end_date : option string;
  court_level : option string
}.

(** The body of [_convert_to_legal_case] is [pass]: it returns [None]. *)
Definition _convert_to_legal_case (result : Payload) : option LegalCase := None.

Definition _convert_to_legal_cases (results : list Payload)
  : list (option LegalCase) :=
  map _convert_to_legal_case results.

End SearchOrchestrator.

(** ** [legal_search_routes.py]: the other endpoints *)

Module Endpoints.

(** What a route hands to the framework: its return value or the
    [HTTPException] it raises. *)
Inductive Response (A : Type) :=
| Returned (body : A)
| HTTPException (status_code : Z) (detail : string).
Arguments Returned {A} body.
Arguments HTTPException {A} status_code detail.

(** [SearchRequest] of [schemas.py].  The framework validates the body
    against the schema before it calls the route: see [valid_request]. *)
Record SearchRequest := mkSearchRequest {
  query : text;
  filters : option FilterSpec;
  limit : Z;
  offset : Z
}.

(** The constraints of the schema: [query] of 1 to 1000 characters, [limit]
    in 1..100, [offset] not negative. *)
Definition valid_request (request : SearchRequest) : bool :=
  (1 <=? List.length (query request))%nat
  && (List.length (query request) <=? 1000)%nat
  && (1 <=? limit request) && (limit request <=? 100)
  && (0 <=? offset request).

(** [search_cuad_contracts]; [semantic_search] is the orchestrator's method. *)
Definition search_cuad_contracts {A : Type}
  (semantic_search : SearchRequest -> Result A) (request : SearchRequest)
  : Response A :=
  match FastEmbedService.strip (query request) with
  | [] => HTTPException 400 "Search query cannot be empty"
  | _ =>
      match semantic_search request with
      | Ok result => Returned result
      | Raise e =>
          HTTPException 500 ("Contract search failed: " ++ str_of_exc e)
      end
  end.

(** What the client of [POST /search] receives: the framework's answer 422
    for a body the schema refuses, else the route's answer. *)
Inductive Served (A : Type) :=
| Unprocessable422
| Routed (answer : Response A).
Arguments Unprocessable422 {A}.
Arguments Routed {A} answer.

Definition post_search {A : Type}
  (semantic_search : SearchRequest -> Result A) (request : SearchRequest)
  : Served A :=
  if valid_request request
  then Routed (search_cuad_contracts semantic_search request)
  else Unprocessable422.

(** [get_cuad_contract]; [get_case_by_id] is the orchestrator's method. *)
Definition get_cuad_contract {A : Type}
  (get_case_by_id : string -> Result (option A)) (case_id : string)
  : Response A :=
  match get_case_by_id case_id with
  | Ok (Some contract) => Returned contract
  | Ok None =>
      HTTPException 404 ("CUAD contract " ++ case_id ++ " not found")
  | Raise e =>
      HTTPException 500 ("Failed to retrieve contract: " ++ str_of_exc e)
  end.

(** The entries of the [/stats] answer read from the collection info; the
    other entries are constants.  [config] is [None] for the default [{}]. *)
Record Stats := mkStats {
  collection_status : AdvancedQdrantService.InfoValue;
  total_contracts : AdvancedQdrantService.InfoValue;
  vector_count : AdvancedQdrantService.InfoValue;
  config : option AdvancedQdrantService.InfoValue
}.

Definition get_or (info : Dict AdvancedQdrantService.InfoValue) (k : string)
  (default : AdvancedQdrantService.InfoValue)
  : AdvancedQdrantService.InfoValue :=
  match get info k with Some v => v | None => default end.

Definition get_cuad_stats (client : QdrantClient) : Response Stats :=
  match AdvancedQdrantService.get_collection_info client with
  | Ok info =>
      Returned
        (mkStats
           (get_or info "status" (AdvancedQdrantService.IStr "unknown"))
           (get_or info "points_count" (AdvancedQdrantService.IInt 0))
           (get_or info "vectors_count" (AdvancedQdrantService.IInt 0))
           (get info "config"))
  | Raise e => HTTPException 500 ("Failed to get stats: " ++ str_of_exc e)
  end.

End Endpoints.

(** ** Vocabulary of the properties *)

Module Spec.

Import AdvancedQdrantService.

(** How the index reads [Filter(must=...)]: a document matches when it meets
    every listed condition; [holds] is the index's test of one condition. *)
Definition must_holds (holds : FieldCondition -> Payload -> bool)
  (f : Filter) (doc : Payload) : bool :=
  forallb (fun c => holds c doc) (must f).

(** The keys the filter compiler reads. *)
Definition recognised_keys : list string :=
  filterable_fields ++ ["date_from"; "date_to"].

(** Single value: exact match; several values: any of them. *)
Definition match_for (values : list string) : Match :=
  match values with
  | [v] => MatchValue v
  | _ => MatchAny values
  end.

(** A filter specification that is absent, empty, or holds only empty or
    absent entries. *)
Definition unconstrained (filters : option FilterSpec) : Prop :=
  match filters with
  | None => True
  | Some d => Forall (fun kv => fv_truthy (snd kv) = false) d
  end.

(** The conditions on the categorical fields, in the order the compiler
    appends them. *)
Definition categorical (filters : FilterSpec) : list FieldCondition :=
  flat_map (field_conditions filters) filterable_fields.

(** The value given to [Range] for a bound: the entry under [k] when it is
    true, else nothing. *)
Definition date_bound (filters : FilterSpec) (k : string)
  : option FilterValue :=
  if get_truthy filters k then get filters k else None.

(** The filter object made of a list of conditions: none for the empty list. *)
Definition filter_of (conditions : list FieldCondition) : option Filter :=
  match conditions with
  | [] => None
  | _ => Some (mkFilter conditions)
  end.

(** The stages of a prefetch chain, innermost (first executed) first. *)
Fixpoint stages (p : Prefetch) : list Prefetch :=
  match pf_prefetch p with
  | Some inner => stages inner ++ [p]
  | None => [p]
  end.




(** A word as [str.split] returns it: non-empty and free of white space. *)
Definition is_word (w : text) : Prop :=
  w <> [] /\ Forall (fun c => FastEmbedService.isspace c = false) w.

(** A chunk within the size limit, or made of a single word of the text. *)
Definition chunk_fits (max_chunk_size : nat) (words : list text) (chunk : text)
  : Prop :=
  (List.length chunk <= max_chunk_size)%nat \/ In chunk words.

(** What the loop of [_chunk_text] keeps true: the finished chunks are the
    joins of non-empty groups of words and fit; the words of the chunk being
    filled take no more room than [current_length] says. *)
Definition chunk_inv (max_chunk_size : nat) (words : list text)
  (groups : list (list text)) (st : FastEmbedService.ChunkState) : Prop :=
  FastEmbedService.chunks st = map FastEmbedService.join groups
  /\ Forall (fun g => g <> []) groups
  /\ Forall (chunk_fits max_chunk_size words) (FastEmbedService.chunks st)
  /\ (FastEmbedService.current_chunk st = []
      \/ ((List.length (FastEmbedService.join (FastEmbedService.current_chunk st))
           <= FastEmbedService.current_length st)%nat
          /\ ((FastEmbedService.current_length st <= max_chunk_size)%nat
              \/ exists w, FastEmbedService.current_chunk st = [w]
                           /\ In w words))).

(** The points of the cases from position [k] on, were they all accepted. *)
Fixpoint points_from (uuid4 : nat -> string)
  (embeddings : Dict (list Embedding)) (k : nat) (cases : list Payload)
  : list PointStruct :=
  match cases with
  | [] => []
  | case :: rest =>
      AdvancedQdrantService.point_of uuid4 embeddings k case
        :: points_from uuid4 embeddings (S k) rest
  end.

Definition all_points (uuid4 : nat -> string)
  (embeddings : Dict (list Embedding)) (cases : list Payload)
  : list PointStruct :=
  points_from uuid4 embeddings 0 cases.

(** The calls of a log are [upsert] calls that the server accepted. *)
Definition accepted_upserts (admin : QdrantAdmin) (calls : list Call) : Prop :=
  Forall (fun call =>
            exists points,
              call = CallUpsert AdvancedQdrantService.collection_name points
              /\ exists u, upsert admin AdvancedQdrantService.collection_name
                                  points = Ok u) calls.

(** The points handed to [upsert] by the calls of a log, in order. *)
Fixpoint sent_points (calls : list Call) : list PointStruct :=
  match calls with
  | [] => []
  | CallUpsert _ points :: rest => points ++ sent_points rest
  | _ :: rest => sent_points rest
  end.

End Spec.

(** ** Collaborators used in the examples *)

Module Samples.

Definition connection_refused : Exc :=
  mkExc ResponseHandlingException "Connection refused".

Definition index_error : Exc :=
  mkExc UnexpectedResponse "Unexpected Response: 400 (Bad Request)".

(** A reading of strings as floats that takes the strings of decimal digits
    and refuses every other string. *)
Fixpoint float_of_nat (n : nat) : float :=
  match n with
  | O => 0%float
  | S n' => (float_of_nat n' + 1)%float
  end.

Fixpoint read_digits (s : string) (acc : float) : option float :=
  match s with
  | EmptyString => Some acc
  | String c s' =>
      let n := nat_of_ascii c in
      if ((48 <=? n) && (n <=? 57))%nat
      then read_digits s' (acc * 10 + float_of_nat (n - 48))%float
      else None
  end.

Definition plain_number (s : string) : option float :=
  match s with
  | EmptyString => None
  | _ => read_digits s 0%float
  end.

(** An index that cannot be reached: every call raises. *)
Definition unreachable_client : QdrantClient :=
  mkQdrantClient
    (fun _ => Raise connection_refused)
    (fun _ => Raise connection_refused)
    (fun _ _ _ => Raise connection_refused)
    (fun _ => Raise connection_refused).

(** An index that rejects multi-stage queries and answers single-stage ones
    from [stored], keeping the threshold and the limit. *)
Definition single_stage_client (stored : list ScoredPoint) : QdrantClient :=
  mkQdrantClient
    (fun _ => Raise index_error)
    (fun req =>
       let kept :=
         match sr_score_threshold req with
         | Some t => filter (fun h => (t <=? sp_score h)%float) stored
         | None => stored
         end in
       Ok (firstn (Z.to_nat (sr_limit req)) kept))
    (fun _ _ _ => Ok [])
    (fun _ => Ok (mkCollectionInfo "green" (Z.of_nat (List.length stored)) 0)).

Definition contract (name : string) (s : float) : ScoredPoint :=
  mkScoredPoint name [ ("case_name", PStr name) ] s.

Definition stored_contracts : list ScoredPoint :=
  [ contract "Supply Agreement" 0.75%float;
    contract "Lease" 0.125%float;
    contract "License Agreement" 0.5%float ].

(** Embedding models that return fixed vectors. *)
Definition constant_models (v : list float) : FastEmbedService.EmbeddingModels :=
  FastEmbedService.mkEmbeddingModels
    (fun _ => Ok v) (fun _ => Ok v) (fun _ => Ok v).

(** A writing client on an empty server: the index request for [industry]
    is refused, and a batch is refused when it holds the case "c12". *)
Definition picky_admin : QdrantAdmin :=
  mkQdrantAdmin
    (Ok [])
    (fun _ _ => Ok tt)
    (fun _ field _ =>
       if String.eqb field "industry" then Raise index_error else Ok tt)
    (fun _ points =>
       if existsb
            (fun p => match ps_id p with
                      | PStr s => String.eqb s "c12"
                      | _ => false
                      end) points
       then Raise index_error else Ok tt).

(** Cases that carry their position as id. *)
Definition numbered_cases (n : nat) : list Payload :=
  map (fun k => [ ("id", PInt (Z.of_nat k)) ]) (seq 0 n).

End Samples.

Import Spec Samples AdvancedQdrantService.

Unset Implicit Arguments.

(** * The filter compiler *)

Section FilterCompiler.

Variable float_of_str : string -> option float.
Variable filters : FilterSpec.

Lemma fold_append_flat_map (A B : Type) (g : A -> list B) (l : list A) :
  forall init,
    fold_left (fun acc x => acc ++ g x) l init = init ++ flat_map g l.
Proof.
  induction l as [|x l IH]; intro init; simpl.
  - now rewrite app_nil_r.
  - rewrite IH. now rewrite app_assoc.
Qed.

(** The filter is built from the categorical conditions followed by what the
    date block yields; an error of the date block is the compiler's. *)
Lemma build_filter_outcome :
  _build_filter float_of_str filters
  = match date_conditions float_of_str filters with
    | Ok date => Ok (filter_of (categorical filters ++ date))
    | Raise e => Raise e
    end.
Proof.
  unfold _build_filter, categorical, filter_of, bind.
  rewrite fold_append_flat_map, app_nil_l.
  destruct (date_conditions float_of_str filters) as [date | e];
    [| reflexivity].
  now destruct (flat_map (field_conditions filters) filterable_fields ++ date).
Qed.

Lemma field_conditions_list field vs :
  get filters field = Some (FList vs) -> vs <> [] ->
  field_conditions filters field =
  [ mkFieldCondition field (Some (match_for vs)) None ].
Proof.
  intros Hget Hne. unfold field_conditions, get_truthy. rewrite Hget.
  destruct vs as [|v [|w vs]]; [contradiction | reflexivity | reflexivity].
Qed.

Lemma field_conditions_inv field c :
  In c (field_conditions filters field) ->
  exists vs, get filters field = Some (FList vs) /\ vs <> []
             /\ c = mkFieldCondition field (Some (match_for vs)) None.
Proof.
  unfold field_conditions, get_truthy.
  destruct (get filters field) as [[ | s | vs]|] eqn:Hget; simpl;
    try (destruct (negb _)); try contradiction.
  destruct vs as [|v [|w vs]]; simpl; try contradiction;
    intros [<- | []]; eexists; (split; [reflexivity | split; [discriminate | reflexivity]]).
Qed.

(** The date block: nothing without a bound; with one, the range on
    [date_filed] when [Range] accepts the bounds, its error otherwise. *)
Lemma date_conditions_outcome :
  date_conditions float_of_str filters
  = if get_truthy filters "date_from" || get_truthy filters "date_to" then
      match range_bound float_of_str (date_bound filters "date_from"),
            range_bound float_of_str (date_bound filters "date_to") with
      | Ok lo, Ok hi =>
          Ok [ mkFieldCondition "date_filed" None (Some (mkRange lo hi)) ]
      | Raise e, _ => Raise e
      | Ok _, Raise e => Raise e
      end
    else Ok [].
Proof.
  unfold date_conditions, date_bound, bind.
  destruct (get_truthy filters "date_from" || get_truthy filters "date_to");
    [| reflexivity].
  destruct (range_bound float_of_str
              (if get_truthy filters "date_from"
               then get filters "date_from" else None)); [| reflexivity].
  now destruct (range_bound float_of_str
                  (if get_truthy filters "date_to"
                   then get filters "date_to" else None)).
Qed.

Lemma range_bound_error (v : option FilterValue) (e : Exc) :
  range_bound float_of_str v = Raise e -> e = validation_error.
Proof.
  destruct v as [[| s | l] |]; simpl; try discriminate.
  - destruct (float_of_str s); [discriminate | now intros [= <-]].
  - now intros [= <-].
Qed.

Lemma date_conditions_error (e : Exc) :
  date_conditions float_of_str filters = Raise e -> e = validation_error.
Proof.
  rewrite date_conditions_outcome.
  destruct (get_truthy filters "date_from" || get_truthy filters "date_to");
    [| discriminate].
  destruct (range_bound float_of_str (date_bound filters "date_from"))
    as [lo | e1] eqn:Hlo.
  - destruct (range_bound float_of_str (date_bound filters "date_to"))
      as [hi | e2] eqn:Hhi; [discriminate |].
    intros [= <-]. exact (range_bound_error _ _ Hhi).
  - intros [= <-]. exact (range_bound_error _ _ Hlo).
Qed.

(** A bound that is a string the library does not read as a float makes the
    compiler raise. *)
Lemma refused_bound_raises (k s : string) :
  k = "date_from" \/ k = "date_to" ->
  get filters k = Some (FStr s) -> s <> "" -> float_of_str s = None ->
  _build_filter float_of_str filters = Raise validation_error.
Proof.
  intros Hk Hget Hs Hrefused.
  assert (Htrue : get_truthy filters k = true).
  { unfold get_truthy. rewrite Hget. simpl.
    apply String.eqb_neq in Hs. now rewrite Hs. }
  assert (Hbound : range_bound float_of_str (date_bound filters k)
                   = Raise validation_error).
  { unfold date_bound. rewrite Htrue, Hget. simpl. now rewrite Hrefused. }
  rewrite build_filter_outcome, date_conditions_outcome.
  destruct Hk as [-> | ->]; rewrite Htrue, ?orb_true_r; simpl orb.
  - now rewrite Hbound.
  - rewrite Hbound.
    destruct (range_bound float_of_str (date_bound filters "date_from"))
      as [lo | e] eqn:Hlo; [reflexivity |].
    now rewrite (range_bound_error _ _ Hlo).
Qed.

End FilterCompiler.

(** The compiler reads nothing but the recognised keys. *)
Lemma build_filter_reads_recognised (float_of_str : string -> option float)
  (f1 f2 : FilterSpec) :
  (forall k, In k recognised_keys -> get f1 k = get f2 k) ->
  _build_filter float_of_str f1 = _build_filter float_of_str f2.
Proof.
  intro Hagree.
  assert (Hfield : forall k, In k recognised_keys ->
                             field_conditions f1 k = field_conditions f2 k).
  { intros k Hk. unfold field_conditions, get_truthy. now rewrite (Hagree k Hk). }
  assert (Hdate : date_conditions float_of_str f1
                  = date_conditions float_of_str f2).
  { unfold date_conditions, get_truthy.
    rewrite (Hagree "date_from"), (Hagree "date_to");
      [reflexivity | unfold recognised_keys; simpl; tauto ..]. }
  rewrite !build_filter_outcome, Hdate. unfold categorical.
  rewrite !flat_map_concat_map.
  rewrite (map_ext_in (field_conditions f1) (field_conditions f2));
    [reflexivity |].
  intros k Hk. apply Hfield. unfold recognised_keys.
  apply in_or_app. now left.
Qed.

Lemma must_holds_iff holds f doc :
  must_holds holds f doc = true <-> forall c, In c (must f) -> holds c doc = true.
Proof. unfold must_holds. apply forallb_forall. Qed.

(** What the compiler does for every filter specification, whatever the
    library's reading of strings as floats.  It returns the categorical
    conditions followed by the date range under [must] (null when there is
    none), or the error of the date range.  Each recognised categorical field
    carrying a non-empty list contributes an exact-match condition for a
    single value and an any-of condition for several values, and the
    categorical conditions come from nothing else.  Without a date bound
    there is no range; with bounds that [Range] accepts there is exactly the
    range on [date_filed] with these bounds.  Keys outside the recognised
    ones do not influence the result, and a document matches a compiled
    filter exactly when it meets every one of its conditions. *)
Lemma build_filter_conjunctive (float_of_str : string -> option float)
  (filters : FilterSpec) :
  _build_filter float_of_str filters
    = match date_conditions float_of_str filters with
      | Ok date => Ok (filter_of (categorical filters ++ date))
      | Raise e => Raise e
      end
  /\ (forall field v,
        In field filterable_fields -> get filters field = Some (FList [v]) ->
        In (mkFieldCondition field (Some (MatchValue v)) None)
           (categorical filters))
  /\ (forall field v w vs,
        In field filterable_fields ->
        get filters field = Some (FList (v :: w :: vs)) ->
        In (mkFieldCondition field (Some (MatchAny (v :: w :: vs))) None)
           (categorical filters))
  /\ (forall c, In c (categorical filters) ->
        In (key c) filterable_fields /\ range c = None
        /\ exists vs, get filters (key c) = Some (FList vs) /\ vs <> []
                      /\ match_ c = Some (match_for vs))
  /\ (get_truthy filters "date_from" = false ->
      get_truthy filters "date_to" = false ->
      date_conditions float_of_str filters = Ok [])
  /\ (forall lo hi,
        get_truthy filters "date_from" = true
        \/ get_truthy filters "date_to" = true ->
        range_bound float_of_str (date_bound filters "date_from") = Ok lo ->
        range_bound float_of_str (date_bound filters "date_to") = Ok hi ->
        date_conditions float_of_str filters
        = Ok [ mkFieldCondition "date_filed" None (Some (mkRange lo hi)) ])
  /\ (forall other,
        (forall k, In k recognised_keys -> get other k = get filters k) ->
        _build_filter float_of_str other = _build_filter float_of_str filters)
  /\ (forall holds f doc,
        _build_filter float_of_str filters = Ok (Some f) ->
        (must_holds holds f doc = true
         <-> forall c, In c (must f) -> holds c doc = true)
        /\ exists date,
             date_conditions float_of_str filters = Ok date
             /\ must f = categorical filters ++ date).
Proof.
  split; [apply build_filter_outcome |].
  split.
  { intros field v Hin Hget. unfold categorical.
    apply in_flat_map. exists field. split; [exact Hin |].
    rewrite (field_conditions_list filters field _ Hget) by discriminate.
    now left. }
  split.
  { intros field v w vs Hin Hget. unfold categorical.
    apply in_flat_map. exists field. split; [exact Hin |].
    rewrite (field_conditions_list filters field _ Hget) by discriminate.
    now left. }
  split.
  { intros c Hc. unfold categorical in Hc.
    apply in_flat_map in Hc as (field & Hfield & Hc).
    apply field_conditions_inv in Hc as (vs & Hget & Hne & ->); simpl.
    split; [exact Hfield | split; [reflexivity | eauto]]. }
  split.
  { intros Hfrom Hto. rewrite date_conditions_outcome.
    now rewrite Hfrom, Hto. }
  split.
  { intros lo hi Hany Hlo Hhi. rewrite date_conditions_outcome.
    assert (Hor : get_truthy filters "date_from"
                  || get_truthy filters "date_to" = true)
      by (now apply orb_true_iff).
    now rewrite Hor, Hlo, Hhi. }
  split; [intros other Hagree; now apply build_filter_reads_recognised |].
  intros holds f doc Hf. split; [apply must_holds_iff |].
  rewrite build_filter_outcome in Hf.
  destruct (date_conditions float_of_str filters) as [date | e];
    [| discriminate].
  exists date. split; [reflexivity |].
  unfold filter_of in Hf.
  destruct (categorical filters ++ date); [discriminate |].
  now injection Hf as <-.
Qed.

(** C4 at a date bound in the documented format: for a library that does
    not read "2020-01-01" as a float (the bounds of [Range] are floats), the
    compiler raises the validation error instead of emitting the date range,
    whatever else the specification holds; the categorical conditions are
    lost with it, and the search answers with the empty list without asking
    the index. *)
Theorem build_filter_date_string_raises
  (float_of_str : string -> option float) (filters : FilterSpec)
  (client : QdrantClient) (query_embeddings : QueryEmbeddings)
  (limit prefetch_limit rerank_limit : Z) :
  float_of_str "2020-01-01" = None ->
  get filters "date_from" = Some (FStr "2020-01-01") ->
  _build_filter float_of_str filters = Raise validation_error
  /\ compile float_of_str (Some filters) = Raise validation_error
  /\ advanced_search float_of_str client query_embeddings (Some filters)
                     limit prefetch_limit rerank_limit = Ok [].
Proof.
  intros Hrefused Hget.
  assert (Hraise : _build_filter float_of_str filters = Raise validation_error).
  { apply (refused_bound_raises float_of_str filters "date_from" "2020-01-01");
      [now left | exact Hget | discriminate | exact Hrefused]. }
  assert (Hcompile : compile float_of_str (Some filters)
                     = Raise validation_error).
  { destruct filters; [discriminate | exact Hraise]. }
  split; [exact Hraise | split; [exact Hcompile |]].
  unfold advanced_search, funnel_body, _fallback_search, fallback_body.
  now rewrite Hcompile.
Qed.

Lemma build_filter_date_string_raises_witness :
  let filters :=
    [ ("jurisdiction", FList ["California"]);
      ("date_from", FStr "2020-01-01") ] in
  plain_number "2020-01-01" = None
  /\ _build_filter plain_number filters = Raise validation_error
  /\ advanced_search plain_number (single_stage_client stored_contracts)
       [ ("dense", Floats [0.5%float; 0.25%float]) ] (Some filters)
       10 1000 100 = Ok [].
Proof.
  cbv zeta. split; [reflexivity |].
  destruct (build_filter_date_string_raises plain_number
              [ ("jurisdiction", FList ["California"]);
                ("date_from", FStr "2020-01-01") ]
              (single_stage_client stored_contracts)
              [ ("dense", Floats [0.5%float; 0.25%float]) ] 10 1000 100
              eq_refl eq_refl) as (Hbuild & _ & Hsearch).
  exact (conj Hbuild Hsearch).
Defined.

(** Scenario A's specification, with an unrecognised key, and a date bound
    that reads as a number. *)
Example build_filter_example :
  _build_filter plain_number
    [ ("jurisdiction", FList ["California"]);
      ("industry", FList ["Technology"; "Finance"]);
      ("reviewer", FList ["anyone"]);
      ("date_from", FStr "2020") ]
  = Ok (Some (mkFilter
      [ mkFieldCondition "jurisdiction" (Some (MatchValue "California")) None;
        mkFieldCondition "industry"
          (Some (MatchAny ["Technology"; "Finance"])) None;
        mkFieldCondition "date_filed" None
          (Some (mkRange (Some 2020%float) None)) ])).
Proof. vm_compute. reflexivity. Qed.

Lemma falsy_entries_get (d : FilterSpec) (k : string) :
  Forall (fun kv => fv_truthy (snd kv) = false) d -> get_truthy d k = false.
Proof.
  unfold get_truthy.
  induction 1 as [| [k' v] d Hv _ IH]; simpl; [reflexivity |].
  destruct (String.eqb k k'); [exact Hv | exact IH].
Qed.

Lemma falsy_entries_emit_nothing (float_of_str : string -> option float)
  (d : FilterSpec) :
  Forall (fun kv => fv_truthy (snd kv) = false) d ->
  categorical d = [] /\ date_conditions float_of_str d = Ok [].
Proof.
  intro Hd. split.
  - unfold categorical. generalize filterable_fields. intro fs.
    induction fs as [|f fs IH]; simpl; [reflexivity |].
    unfold field_conditions at 1.
    now rewrite (falsy_entries_get d f Hd).
  - unfold date_conditions.
    now rewrite !(falsy_entries_get d _ Hd).
Qed.

(** C5.  A filter specification that is absent, empty, or made only of empty
    or absent entries compiles to null: no filter object is built. *)
Theorem compile_unconstrained_null (float_of_str : string -> option float)
  (filters : option FilterSpec) :
  unconstrained filters -> compile float_of_str filters = Ok None.
Proof.
  destruct filters as [[|kv d]|]; simpl; intro Hd; try reflexivity.
  rewrite build_filter_outcome.
  destruct (falsy_entries_emit_nothing float_of_str _ Hd) as [-> ->].
  reflexivity.
Qed.

Lemma compile_unconstrained_null_witness :
  let filters := Some [ ("jurisdiction", FList []); ("industry", FNone);
                        ("date_from", FStr "") ] in
  unconstrained filters /\ compile plain_number filters = Ok None.
Proof.
  assert (H : unconstrained
                (Some [ ("jurisdiction", FList []); ("industry", FNone);
                        ("date_from", FStr "") ])).
  { simpl. repeat constructor. }
  exact (conj H (compile_unconstrained_null plain_number _ H)).
Defined.

(** No specification at all compiles to a filter object without conditions. *)
Lemma compile_never_vacuous (float_of_str : string -> option float)
  (filters : option FilterSpec) (f : Filter) :
  compile float_of_str filters = Ok (Some f) -> must f <> [].
Proof.
  intro Hc.
  assert (Hb : exists d, _build_filter float_of_str d = Ok (Some f)).
  { destruct filters as [[|kv d]|]; simpl in Hc; try discriminate; eauto. }
  destruct Hb as (d & Hb). rewrite build_filter_outcome in Hb.
  destruct (date_conditions float_of_str d) as [date | e]; [| discriminate].
  unfold filter_of in Hb.
  destruct (categorical d ++ date) eqn:He; [discriminate |].
  injection Hb as <-. simpl. discriminate.
Qed.

(** * The coarse-to-fine chain *)

(** C1.  For every query bundle and every compiled filter the request of
    [advanced_search] holds a chain whose first stage queries with the byte
    vector (the dense vector when the bundle has no byte vector), carries the
    compiled filter and has no inner stage; a rerank stage over the dense-fine
    vector follows exactly when the bundle has one; no later stage and not the
    final query carries a filter; the final query ranks with the multi-vector
    when present and with the dense vector otherwise.  The chain has one or
    two prefetch stages.  This request, built with the filter the
    specification compiles to, is the one [advanced_search] sends. *)
Theorem funnel_chain (query_embeddings : QueryEmbeddings)
  (qdrant_filter : option Filter) (limit prefetch_limit rerank_limit : Z) :
  let req := funnel_request query_embeddings qdrant_filter limit
                            prefetch_limit rerank_limit in
  (exists first rest,
    stages (qr_prefetch req) = first :: rest
    /\ pf_prefetch first = None
    /\ pf_using first = "byte"
    /\ pf_limit first = prefetch_limit
    /\ pf_filter first = qdrant_filter
    /\ (forall b, get query_embeddings "byte" = Some b -> pf_query first = Some b)
    /\ (get query_embeddings "byte" = None ->
        pf_query first = get query_embeddings "dense")
    /\ (forall r, get query_embeddings "rerank" = Some r ->
        rest = [ mkPrefetch (Some first) (Some r) "rerank" rerank_limit None ])
    /\ (get query_embeddings "rerank" = None ->
        rest = [] /\ qr_prefetch req = first)
    /\ Forall (fun stage => pf_filter stage = None) rest
    /\ qr_query_filter req = None
    /\ (forall c, get query_embeddings "colbert" = Some c ->
        qr_query req = Some c /\ qr_using req = "colbert")
    /\ (get query_embeddings "colbert" = None ->
        qr_query req = get query_embeddings "dense" /\ qr_using req = "dense")
    /\ qr_limit req = limit
    /\ (1 <= List.length (stages (qr_prefetch req)) <= 2)%nat)
  /\ (forall float_of_str client filters,
        compile float_of_str filters = Ok qdrant_filter ->
        funnel_body float_of_str client query_embeddings filters limit
                    prefetch_limit rerank_limit
        = (hits <- query_points client req ;; Ok (format_results hits))).
Proof.
  cbv zeta. split.
  - unfold funnel_request.
    destruct (get query_embeddings "rerank") as [r|] eqn:Hr;
      destruct (get query_embeddings "colbert") as [c|] eqn:Hc;
      destruct (get query_embeddings "byte") as [b|] eqn:Hb; simpl;
      eexists; eexists; (split; [reflexivity |]); simpl;
      repeat match goal with
             | |- _ /\ _ => split
             | |- forall _, _ => intro
             | |- Forall _ [] => constructor
             | |- Forall _ (_ :: _) => constructor
             end;
      try reflexivity; try congruence; try lia.
  - intros float_of_str client filters Hcompile.
    unfold funnel_body. now rewrite Hcompile.
Qed.

(** Scenario C: a bundle with the dense and the byte vector only.  The
    rerank stage is skipped and the final query ranks with the dense vector. *)
Example scenario_c :
  funnel_request
    [ ("dense", Floats [0.5%float; 0.25%float]); ("byte", Bytes [255; 0]) ]
    None 20 1000 100
  = mkQueryRequest "cuad_contracts_v2"
      (mkPrefetch None (Some (Bytes [255; 0])) "byte" 1000 None)
      (Some (Floats [0.5%float; 0.25%float])) "dense" None 20 true.
Proof. reflexivity. Qed.

(** * Result assembly *)

Section DictLaws.

Context {V : Type}.

Lemma get_set_same (d : Dict V) (k : string) (v : V) :
  get (set d k v) k = Some v.
Proof.
  induction d as [| [k' v'] d IH]; simpl.
  - now rewrite String.eqb_refl.
  - destruct (String.eqb k k') eqn:E; simpl; rewrite E; [reflexivity | exact IH].
Qed.

Lemma get_set_other (d : Dict V) (k k' : string) (v : V) :
  k' <> k -> get (set d k v) k' = get d k'.
Proof.
  intro Hne.
  induction d as [| [k0 v0] d IH]; simpl.
  - apply String.eqb_neq in Hne. now rewrite Hne.
  - destruct (String.eqb k k0) eqn:E; simpl.
    + apply String.eqb_eq in E; subst k0.
      apply String.eqb_neq in Hne. now rewrite Hne.
    + now rewrite IH.
Qed.

Lemma get_in_values (d : Dict V) (k : string) (v : V) :
  get d k = Some v -> In v (values d).
Proof.
  induction d as [| [k0 v0] d IH]; simpl; [discriminate |].
  destruct (String.eqb k k0).
  - intros [= ->]. now left.
  - intro H. right. now apply IH.
Qed.

End DictLaws.

(** C8.  The formatting loop yields one result per raw hit, at the hit's
    position: the hit's payload with its score stored under [score] and every
    other key unchanged.  The orchestrator's list conversion keeps one slot
    per result as well. *)
Theorem format_results_one_to_one (points : list ScoredPoint) :
  List.length (format_results points) = List.length points
  /\ (forall i hit,
        nth_error points i = Some hit ->
        exists result,
          nth_error (format_results points) i = Some result
          /\ get result "score" = Some (PFloat (sp_score hit))
          /\ (forall k, k <> "score" -> get result k = get (sp_payload hit) k))
  /\ List.length
       (SearchOrchestrator._convert_to_legal_cases (format_results points))
     = List.length points.
Proof.
  unfold SearchOrchestrator._convert_to_legal_cases, format_results.
  repeat split.
  - apply length_map.
  - intros i hit Hnth.
    exists (set (sp_payload hit) "score" (PFloat (sp_score hit))).
    split; [| split].
    + now rewrite nth_error_map, Hnth.
    + apply get_set_same.
    + intros k Hk. now apply get_set_other.
  - now rewrite !length_map.
Qed.

(** * Point lookup *)

(** C10.  When the index retrieval raises, whatever the exception,
    [get_case_by_id] returns [None]: the answer it also gives when the index
    holds no such document. *)
Theorem get_case_by_id_swallows (client : QdrantClient) (case_id : string)
  (e : Exc) :
  retrieve client collection_name [case_id] true = Raise e ->
  get_case_by_id client case_id = Ok None
  /\ forall client',
       retrieve client' collection_name [case_id] true = Ok [] ->
       get_case_by_id client' case_id = get_case_by_id client case_id.
Proof.
  intro Hraise. unfold get_case_by_id. rewrite Hraise. simpl.
  split; [reflexivity |].
  intros client' Hmissing. now rewrite Hmissing.
Qed.

Lemma get_case_by_id_swallows_witness :
  retrieve unreachable_client collection_name ["cuad-0042"] true
    = Raise connection_refused
  /\ get_case_by_id unreachable_client "cuad-0042" = Ok None.
Proof.
  split; [reflexivity |].
  exact (proj1 (get_case_by_id_swallows unreachable_client "cuad-0042"
                  connection_refused eq_refl)).
Defined.

(** * Failure of the funnel *)

Section Failure.

Variable float_of_str : string -> option float.

Lemma fallback_search_returns (client : QdrantClient)
  (query_embeddings : QueryEmbeddings) (filters : option FilterSpec) (limit : Z) :
  exists results,
    _fallback_search float_of_str client query_embeddings filters limit
    = Ok results.
Proof.
  unfold _fallback_search.
  destruct (fallback_body float_of_str client query_embeddings filters limit);
    simpl; eauto.
Qed.

(** Neither search method lets an exception out. *)
Lemma advanced_search_returns (client : QdrantClient)
  (query_embeddings : QueryEmbeddings) (filters : option FilterSpec)
  (limit prefetch_limit rerank_limit : Z) :
  exists results,
    advanced_search float_of_str client query_embeddings filters limit
                    prefetch_limit rerank_limit = Ok results.
Proof.
  unfold advanced_search.
  destruct (funnel_body _ _ _ _ _ _ _); simpl; [eauto |].
  apply fallback_search_returns.
Qed.

(** C3, amended.  When the multi-stage call raises and the single-stage
    fallback raises too, the search returns the empty list, whatever the two
    exceptions are, connectivity-level ones included. *)
Theorem fallback_failure_returns_empty (client : QdrantClient)
  (query_embeddings : QueryEmbeddings) (filters : option FilterSpec)
  (limit prefetch_limit rerank_limit : Z) (e1 e2 : Exc) :
  funnel_body float_of_str client query_embeddings filters limit
              prefetch_limit rerank_limit = Raise e1 ->
  fallback_body float_of_str client query_embeddings filters limit
    = Raise e2 ->
  advanced_search float_of_str client query_embeddings filters limit
                  prefetch_limit rerank_limit = Ok [].
Proof.
  intros Hfunnel Hfallback.
  unfold advanced_search, _fallback_search.
  now rewrite Hfunnel, Hfallback.
Qed.

End Failure.

(** C3 as stated fails: with an unreachable index both stages raise a
    connectivity-level exception, and the search still answers with the empty
    list instead of raising it. *)
Lemma unreachable_index_answers_empty :
  let query_embeddings := [ ("dense", Floats [0.5%float; 0.25%float]) ] in
  funnel_body plain_number unreachable_client query_embeddings None 10 1000 100
    = Raise connection_refused
  /\ fallback_body plain_number unreachable_client query_embeddings None 10
     = Raise connection_refused
  /\ is_connectivity connection_refused = true
  /\ advanced_search plain_number unreachable_client query_embeddings None
                     10 1000 100
     = Ok []
  /\ advanced_search plain_number unreachable_client query_embeddings None
                     10 1000 100
     <> Raise connection_refused.
Proof.
  cbv zeta. repeat split; try reflexivity. discriminate.
Qed.

Lemma fallback_failure_returns_empty_witness :
  advanced_search plain_number unreachable_client
                  [ ("dense", Floats [0.5%float]) ]
                  (Some [ ("jurisdiction", FList ["California"]) ]) 20 1000 100
  = Ok [].
Proof.
  exact (fallback_failure_returns_empty plain_number unreachable_client
           [ ("dense", Floats [0.5%float]) ]
           (Some [ ("jurisdiction", FList ["California"]) ]) 20 1000 100
           connection_refused connection_refused eq_refl eq_refl).
Defined.

(** The vector the fallback queries with is one the bundle holds. *)
Lemma fallback_query_vector_present (query_embeddings : QueryEmbeddings)
  (v : Embedding) :
  fallback_query_vector query_embeddings = Ok v ->
  In v (values query_embeddings).
Proof.
  unfold fallback_query_vector, get_true.
  destruct (get query_embeddings "dense") as [d|] eqn:Hd.
  - destruct (emb_truthy d).
    + intros [= <-]. eapply get_in_values; eassumption.
    + destruct (get query_embeddings "rerank") as [r|] eqn:Hr.
      * destruct (emb_truthy r).
        -- intros [= <-]. eapply get_in_values; eassumption.
        -- destruct query_embeddings as [|[k x] rest]; simpl;
             [discriminate | intros [= <-]; now left].
      * destruct query_embeddings as [|[k x] rest]; simpl;
          [discriminate | intros [= <-]; now left].
  - destruct (get query_embeddings "rerank") as [r|] eqn:Hr.
    + destruct (emb_truthy r).
      * intros [= <-]. eapply get_in_values; eassumption.
      * destruct query_embeddings as [|[k x] rest]; simpl;
          [discriminate | intros [= <-]; now left].
    + destruct query_embeddings as [|[k x] rest]; simpl;
        [discriminate | intros [= <-]; now left].
Qed.



Lemma Forall_firstn (A : Type) (P : A -> Prop) (n : nat) (l : list A) :
  Forall P l -> Forall P (firstn n l).
Proof.
  intro H. rewrite <- (firstn_skipn n l) in H.
  now apply Forall_app in H.
Qed.







(** Scenario D: the multi-stage call raises an index error; the fallback
    returns the stored contracts scoring at least 0.3, the one at 0.125 is
    left out. *)
Example scenario_d :
  advanced_search plain_number (single_stage_client stored_contracts)
    [ ("dense", Floats [0.5%float; 0.25%float]) ] None 10 1000 100
  = Ok [ [ ("case_name", PStr "Supply Agreement"); ("score", PFloat 0.75%float) ];
         [ ("case_name", PStr "License Agreement"); ("score", PFloat 0.5%float) ] ].
Proof. vm_compute. reflexivity. Qed.

(** * The multi-vector representation *)

Import FastEmbedService.

Section Colbert.

Variable m : EmbeddingModels.

(** Each chunk adds at most one vector to the accumulator. *)
Lemma embed_chunks_bounds (chunks : list text) :
  forall acc vs,
    embed_chunks m chunks acc = Ok vs ->
    (List.length acc <= List.length vs
     <= List.length acc + List.length chunks)%nat.
Proof.
  induction chunks as [| chunk rest IH]; simpl; intros acc vs Hrun.
  - injection Hrun as <-. lia.
  - destruct (strip chunk).
    + apply IH in Hrun. lia.
    + destruct (colbert_model m chunk) as [v | e]; simpl in Hrun;
        [| discriminate].
      apply IH in Hrun. rewrite length_app in Hrun. simpl in Hrun. lia.
Qed.

(** Chunks that are blank after stripping add nothing. *)
Lemma embed_chunks_unusable (chunks : list text) (acc : list (list float)) :
  Forall (fun chunk => strip chunk = []) chunks ->
  embed_chunks m chunks acc = Ok acc.
Proof.
  induction 1 as [| chunk rest Hblank _ IH]; simpl; [reflexivity |].
  now rewrite Hblank.
Qed.

(** C6.  When [get_colbert_embeddings] returns, it returns between one and
    K = 8 vectors; and when none of the chunks is usable, the single vector is
    the embedding of the whole cleaned text. *)
Theorem colbert_embeddings_bounds (t : text) (vs : list (list float)) :
  get_colbert_embeddings m t = Ok vs ->
  (1 <= List.length vs <= K)%nat
  /\ K = 8%nat
  /\ (Forall (fun chunk => strip chunk = [])
             (firstn K (_chunk_text (_clean_text t) 200)) ->
      exists v, colbert_model m (_clean_text t) = Ok v /\ vs = [v]).
Proof.
  unfold get_colbert_embeddings.
  set (chunks := firstn K (_chunk_text (_clean_text t) 200)).
  assert (Hcap : (List.length chunks <= K)%nat) by apply firstn_le_length.
  destruct (embed_chunks m chunks []) as [multi | e] eqn:Hloop; simpl;
    [| discriminate].
  pose proof (embed_chunks_bounds chunks [] multi Hloop) as Hlen.
  simpl in Hlen.
  destruct multi as [| v0 multi'].
  - destruct (colbert_model m (_clean_text t)) as [v | e] eqn:Hwhole; simpl;
      [| discriminate].
    intros [= <-]. simpl. unfold K.
    split; [lia | split; [reflexivity | eauto]].
  - intros [= <-]. simpl in *.
    split; [lia | split; [reflexivity |]].
    intro Hblank. rewrite (embed_chunks_unusable chunks [] Hblank) in Hloop.
    discriminate.
Qed.

(** With a model that answers every text, the representation is produced. *)
Lemma colbert_embeddings_returns (t : text) :
  (forall s, exists v, colbert_model m s = Ok v) ->
  exists vs, get_colbert_embeddings m t = Ok vs.
Proof.
  intro Htotal. unfold get_colbert_embeddings.
  assert (Hloop : forall cs acc, exists vs, embed_chunks m cs acc = Ok vs).
  { induction cs as [| chunk rest IH]; simpl; intro acc; [eauto |].
    destruct (strip chunk); [apply IH |].
    destruct (Htotal chunk) as (v & ->). simpl. apply IH. }
  destruct (Hloop (firstn K (_chunk_text (_clean_text t) 200)) [])
    as ([| v vs] & ->); simpl; [| eauto].
  destruct (Htotal (_clean_text t)) as (v & ->). simpl. eauto.
Qed.

End Colbert.

Lemma colbert_embeddings_bounds_witness :
  let m := constant_models [0.5%float; 0.25%float] in
  let t := list_ascii_of_string "  governing   law of the agreement " in
  get_colbert_embeddings m t = Ok [ [0.5%float; 0.25%float] ]
  /\ (1 <= List.length [ [0.5%float; 0.25%float] ] <= K)%nat.
Proof.
  cbv zeta. split; [reflexivity |].
  exact (proj1 (colbert_embeddings_bounds
                  (constant_models [0.5%float; 0.25%float])
                  (list_ascii_of_string "  governing   law of the agreement ")
                  [ [0.5%float; 0.25%float] ] eq_refl)).
Defined.

(** The empty text has no chunk: the whole (empty) text is embedded once. *)
Example colbert_of_empty_text :
  get_colbert_embeddings (constant_models [1%float]) []
  = Ok [ [1%float] ].
Proof. reflexivity. Qed.

Example chunk_text_example :
  map string_of_list_ascii
      (_chunk_text (list_ascii_of_string "hello   world  foo bar") 11)
  = [ "hello"; "world foo"; "bar" ].
Proof. reflexivity. Qed.

(** * The byte vector *)

Example quantize_regular :
  quantize [0%float; 0.5%float; 1%float; 0.25%float]
  = Ok [Some 0; Some 127; Some 255; Some 63].
Proof. vm_compute. reflexivity. Qed.

Lemma trunc_search_range (n : nat) :
  forall k kf x z,
    trunc_search n k kf x = Some z -> k <= z < k + Z.of_nat n.
Proof.
  induction n as [| n IH]; simpl; intros k kf x z Hfound; [discriminate |].
  destruct (x <? kf + 1)%float.
  - injection Hfound as <-. lia.
  - apply IH in Hfound. lia.
Qed.

(** Where the cast is defined, its value is a byte. *)
Lemma astype_uint8_range (x : float) (z : Z) :
  astype_uint8 x = Some z -> 0 <= z <= 255.
Proof.
  unfold astype_uint8.
  destruct (is_nan x); [discriminate |].
  destruct (x <=? -1)%float; [discriminate |].
  destruct (x <? 0)%float.
  - intros [= <-]. lia.
  - intro Hfound. apply trunc_search_range in Hfound. lia.
Qed.

(** C7 at a vector whose components are all equal: the normalisation divides
    zero by zero, every normalised component is NaN instead of a value in
    [0,1], and no component of the byte vector has a defined value. *)
Theorem byte_vector_degenerate :
  let dense := [0.5%float; 0.5%float; 0.5%float] in
  let m := constant_models dense in
  (exists normalized,
      normalize dense = Ok normalized
      /\ map is_nan normalized = [true; true; true])
  /\ get_byte_vector m (list_ascii_of_string "governing law")
     = Ok [None; None; None].
Proof.
  cbv zeta. split.
  - eexists. split; [reflexivity |]. vm_compute. reflexivity.
  - vm_compute. reflexivity.
Qed.

(** The all-zero vector is degenerate in the same way, and the empty vector
    makes the reduction raise. *)
Example quantize_zero_vector :
  quantize [0%float; 0%float] = Ok [None; None].
Proof. vm_compute. reflexivity. Qed.

Example quantize_empty_vector :
  quantize [] = Raise (zero_size "minimum").
Proof. reflexivity. Qed.

(** * The health endpoint *)

(** [get_collection_info] catches every exception itself. *)
Lemma get_collection_info_returns (client : QdrantClient) :
  exists info, get_collection_info client = Ok info.
Proof.
  unfold get_collection_info.
  destruct (get_collection client collection_name); simpl; eauto.
Qed.

(** So the [except] branch of [health_check] is never taken: the overall
    status is "healthy" whatever the index does. *)
Lemma health_check_status (client : QdrantClient) (now : Z) :
  Routes.status (Routes.health_check client now) = "healthy".
Proof.
  unfold Routes.health_check.
  destruct (get_collection_info_returns client) as (info & ->).
  reflexivity.
Qed.

(** Whatever exception the collection-info call raises, the response keeps
    the overall status "healthy" and reads the index as "unhealthy". *)
Lemma health_check_on_failure (client : QdrantClient) (e : Exc) (now : Z) :
  get_collection client collection_name = Raise e ->
  Routes.health_check client now
  = Routes.mkHealthResponse "healthy" now settings.app_version "unhealthy".
Proof.
  intro Hraise.
  unfold Routes.health_check, get_collection_info.
  now rewrite Hraise.
Qed.

(** C9 at an unreachable index: the collection-info call raises a
    connectivity-level exception, and the response reads overall status
    "healthy" with index status "unhealthy". *)
Theorem health_check_unreachable_index (now : Z) :
  get_collection unreachable_client collection_name = Raise connection_refused
  /\ is_connectivity connection_refused = true
  /\ Routes.health_check unreachable_client now
     = Routes.mkHealthResponse "healthy" now "2.0.0" "unhealthy".
Proof.
  split; [reflexivity | split; [reflexivity |]].
  now apply health_check_on_failure with (e := connection_refused).
Qed.

(** * Text preparation *)

Section Words.

Lemma join_cons (w : text) (ws : list text) :
  ws <> [] -> join (w :: ws) = w ++ " "%char :: join ws.
Proof. destruct ws; [contradiction | reflexivity]. Qed.

Lemma split_from_words (s : text) :
  forall word,
    Forall (fun c => isspace c = false) word ->
    Forall is_word (split_from s word).
Proof.
  induction s as [| c s IH]; simpl; intros word Hword.
  - destruct word as [| x word]; constructor; [| constructor].
    split; [| now apply Forall_rev].
    intro Hnil. apply (f_equal (@List.length ascii)) in Hnil.
    rewrite length_rev in Hnil. discriminate.
  - destruct (isspace c) eqn:Hc.
    + destruct word as [| x word]; [apply IH; constructor |].
      constructor; [| apply IH; constructor].
      split; [| now apply Forall_rev].
      intro Hnil. apply (f_equal (@List.length ascii)) in Hnil.
      rewrite length_rev in Hnil. discriminate.
    + apply IH. now constructor.
Qed.

(** Reading a run of non-space characters moves it into the word at hand. *)
Lemma split_from_run (w : text) :
  Forall (fun c => isspace c = false) w ->
  forall rest word, split_from (w ++ rest) word = split_from rest (rev w ++ word).
Proof.
  induction 1 as [| c w Hc _ IH]; intros rest word; simpl; [reflexivity |].
  rewrite Hc, IH. now rewrite <- app_assoc.
Qed.

Lemma split_join (ws : list text) :
  Forall is_word ws -> split (join ws) = ws.
Proof.
  unfold split.
  induction 1 as [| w ws [Hne Hw] Hws IH]; [reflexivity |].
  destruct ws as [| w' ws].
  - simpl. rewrite <- (app_nil_r w) at 1.
    rewrite (split_from_run w Hw). simpl. rewrite app_nil_r.
    destruct (rev w) eqn:Hrev.
    + apply (f_equal (@rev ascii)) in Hrev. rewrite rev_involutive in Hrev.
      contradiction.
    + rewrite <- Hrev. now rewrite rev_involutive.
  - rewrite join_cons by discriminate.
    rewrite (split_from_run w Hw). rewrite app_nil_r.
    change (split_from (" "%char :: join (w' :: ws)) (rev w))
      with (match rev w with
            | [] => split_from (join (w' :: ws)) []
            | _ => rev (rev w) :: split_from (join (w' :: ws)) []
            end).
    destruct (rev w) eqn:Hrev.
    + apply (f_equal (@rev ascii)) in Hrev. rewrite rev_involutive in Hrev.
      contradiction.
    + rewrite <- Hrev, rev_involutive. now rewrite IH.
Qed.

End Words.

(** X1.  The cleaned text is never longer than the budget of 2000 characters
    plus the three of the truncation marker. *)
Theorem clean_text_bounded (t : text) :
  (List.length (_clean_text t) <= max_chars + 3)%nat.
Proof.
  unfold _clean_text.
  destruct t as [| c t']; [simpl; lia |].
  set (u := join (split (c :: t'))).
  destruct (max_chars <? List.length u)%nat eqn:Hlong.
  - rewrite length_app, length_firstn.
    change (List.length (list_ascii_of_string "...")) with 3%nat. lia.
  - apply Nat.ltb_ge in Hlong. lia.
Qed.

Lemma clean_text_short (t : text) :
  (List.length (join (split t)) <= max_chars)%nat ->
  _clean_text t = join (split t).
Proof.
  intro Hshort. unfold _clean_text.
  destruct t as [| c t']; [reflexivity |].
  apply Nat.ltb_ge in Hshort. now rewrite Hshort.
Qed.

(** X2.  A text whose words fit the budget is cleaned without loss: the
    cleaned text has the same words, and cleaning it again changes nothing. *)
Theorem clean_text_keeps_words (t : text) :
  (List.length (join (split t)) <= max_chars)%nat ->
  split (_clean_text t) = split t
  /\ _clean_text (_clean_text t) = _clean_text t.
Proof.
  intro Hshort.
  assert (Hsplit : split (join (split t)) = split t).
  { apply split_join. apply split_from_words. constructor. }
  rewrite (clean_text_short t Hshort).
  split; [exact Hsplit |].
  rewrite clean_text_short; rewrite Hsplit; [reflexivity | exact Hshort].
Qed.

Lemma clean_text_keeps_words_witness :
  let t := list_ascii_of_string "  governing   law of the agreement " in
  split (_clean_text t) = split t
  /\ _clean_text (_clean_text t) = _clean_text t.
Proof.
  cbv zeta.
  apply (clean_text_keeps_words
           (list_ascii_of_string "  governing   law of the agreement ")).
  apply Nat.leb_le. vm_compute. reflexivity.
Defined.

(** * Chunking *)

Section Chunking.

Variable max_chunk_size : nat.
Variable words : list text.

Lemma join_snoc (ws : list text) (w : text) :
  ws <> [] -> join (ws ++ [w]) = join ws ++ " "%char :: w.
Proof.
  induction ws as [| x ws IH]; [contradiction |]; intros _.
  destruct ws as [| y ws]; [reflexivity |].
  change ((x :: y :: ws) ++ [w]) with (x :: (y :: ws) ++ [w]).
  rewrite (join_cons x ((y :: ws) ++ [w])) by discriminate.
  rewrite (join_cons x (y :: ws)) by discriminate.
  rewrite IH by discriminate.
  now rewrite <- app_assoc.
Qed.

Lemma length_join_snoc (ws : list text) (w : text) :
  ws <> [] ->
  List.length (join (ws ++ [w]))
  = (List.length (join ws) + 1 + List.length w)%nat.
Proof.
  intro Hne. rewrite (join_snoc ws w Hne), length_app. simpl. lia.
Qed.

(** One iteration keeps the invariant and files the word read. *)
Lemma chunk_step_inv (groups : list (list text)) (st : ChunkState) (w : text) :
  In w words ->
  chunk_inv max_chunk_size words groups st ->
  exists groups',
    chunk_inv max_chunk_size words groups' (chunk_step max_chunk_size st w)
    /\ List.concat groups' ++ current_chunk (chunk_step max_chunk_size st w)
       = (List.concat groups ++ current_chunk st) ++ [w].
Proof.
  intros Hw (Hchunks & Hgroups & Hfit & Hcur).
  unfold chunk_step.
  destruct ((max_chunk_size <? current_length st + List.length w + 1)%nat
            && negb (List.length (current_chunk st) =? 0)%nat) eqn:Hflush.
  - (* the chunk at hand is closed *)
    apply andb_true_iff in Hflush as [_ Hne].
    assert (Hne' : current_chunk st <> []).
    { intro H0. rewrite H0 in Hne. discriminate. }
    exists (groups ++ [current_chunk st]). split.
    + repeat split; simpl.
      * now rewrite map_app, Hchunks.
      * apply Forall_app. split; [exact Hgroups | now constructor].
      * apply Forall_app. split; [exact Hfit |]. constructor; [| constructor].
        destruct Hcur as [H0 | [Hlen [Hmax | (x & Hx & Hin)]]];
          [contradiction | left; lia | right; now rewrite Hx].
      * right. split; [lia | right; eauto].
    + simpl. rewrite concat_app. simpl. now rewrite app_nil_r.
  - (* the word joins the chunk at hand *)
    exists groups. split.
    + repeat split; simpl; try assumption.
      right.
      destruct (current_chunk st) as [| x cur] eqn:Hcc.
      * simpl. split; [lia | right; eauto].
      * rewrite length_join_snoc by discriminate.
        simpl negb in Hflush. rewrite andb_true_r in Hflush.
        apply Nat.ltb_ge in Hflush.
        destruct Hcur as [H0 | [Hlen _]]; [discriminate |].
        split; [lia | left; lia].
    + simpl. now rewrite app_assoc.
Qed.

Lemma chunk_fold_inv (ws : list text) :
  incl ws words ->
  forall groups st,
    chunk_inv max_chunk_size words groups st ->
    exists groups',
      chunk_inv max_chunk_size words groups'
                (fold_left (chunk_step max_chunk_size) ws st)
      /\ List.concat groups'
         ++ current_chunk (fold_left (chunk_step max_chunk_size) ws st)
         = (List.concat groups ++ current_chunk st) ++ ws.
Proof.
  induction ws as [| w ws IH]; intros Hincl groups st Hinv; simpl.
  - exists groups. split; [exact Hinv | now rewrite app_nil_r].
  - destruct (chunk_step_inv groups st w (Hincl w (or_introl eq_refl)) Hinv)
      as (groups1 & Hinv1 & Hfiled1).
    destruct (IH (fun x Hx => Hincl x (or_intror Hx)) groups1 _ Hinv1)
      as (groups2 & Hinv2 & Hfiled2).
    exists groups2. split; [exact Hinv2 |].
    rewrite Hfiled2, Hfiled1. now rewrite <- app_assoc.
Qed.

End Chunking.

(** The chunks are the joins of consecutive non-empty groups of the words of
    the text, and each fits or is a single word. *)
Lemma chunk_text_groups (t : text) (max_chunk_size : nat) :
  exists groups,
    _chunk_text t max_chunk_size = map join groups
    /\ Forall (fun g => g <> []) groups
    /\ List.concat groups = split t
    /\ Forall (chunk_fits max_chunk_size (split t))
              (_chunk_text t max_chunk_size).
Proof.
  unfold _chunk_text.
  destruct (chunk_fold_inv max_chunk_size (split t) (split t)
              (fun x Hx => Hx) [] (mkChunkState [] [] 0))
    as (groups & (Hchunks & Hgroups & Hfit & Hcur) & Hfiled).
  { unfold chunk_inv. simpl.
    split; [reflexivity | split; [constructor | split; [constructor |]]].
    now left. }
  simpl in Hfiled.
  set (st := fold_left (chunk_step max_chunk_size) (split t)
                       (mkChunkState [] [] 0)) in *.
  destruct (current_chunk st) as [| x cur] eqn:Hcc.
  - exists groups. rewrite app_nil_r in Hfiled. auto.
  - exists (groups ++ [x :: cur]).
    split; [now rewrite map_app, Hchunks |].
    split; [apply Forall_app; split; [exact Hgroups | now constructor] |].
    split; [rewrite concat_app; simpl; now rewrite app_nil_r |].
    apply Forall_app. split; [exact Hfit |]. constructor; [| constructor].
    destruct Hcur as [H0 | [Hlen [Hmax | (w & Hw & Hin)]]];
      [discriminate | left; lia | right; now rewrite Hw].
Qed.

Lemma join_app (a b : list text) :
  a <> [] -> b <> [] -> join (a ++ b) = join a ++ " "%char :: join b.
Proof.
  intros Ha Hb. induction a as [| x a IH]; [contradiction |].
  destruct a as [| y a].
  - simpl app. now rewrite join_cons.
  - change ((x :: y :: a) ++ b) with (x :: (y :: a) ++ b).
    rewrite (join_cons x ((y :: a) ++ b)) by discriminate.
    rewrite (join_cons x (y :: a)) by discriminate.
    rewrite IH by discriminate. now rewrite <- app_assoc.
Qed.

Lemma concat_nonempty (A : Type) (g : list A) (gs : list (list A)) :
  Forall (fun g => g <> []) (g :: gs) -> List.concat (g :: gs) <> [].
Proof.
  intro H. inversion H as [| ? ? Hg _]; subst. simpl.
  destruct g; [contradiction | discriminate].
Qed.

Lemma join_map_join (groups : list (list text)) :
  Forall (fun g => g <> []) groups ->
  join (map join groups) = join (List.concat groups).
Proof.
  induction 1 as [| g gs Hg Hgs IH]; [reflexivity |].
  destruct gs as [| g' gs].
  - simpl. now rewrite app_nil_r.
  - change (map join (g :: g' :: gs)) with (join g :: map join (g' :: gs)).
    rewrite join_cons by discriminate. rewrite IH.
    change (List.concat (g :: g' :: gs)) with (g ++ List.concat (g' :: gs)).
    rewrite join_app; [reflexivity | exact Hg | now apply concat_nonempty].
Qed.

Lemma groups_of_words (groups : list (list text)) (ws : list text) :
  List.concat groups = ws -> Forall is_word ws ->
  Forall (Forall is_word) groups.
Proof.
  revert ws. induction groups as [| g gs IH]; intros ws Hcat Hws;
    constructor; simpl in Hcat; subst ws; apply Forall_app in Hws.
  - tauto.
  - now apply (IH (List.concat gs)).
Qed.

(** X3.  Chunking loses no word: the words of the chunks, in order, are the
    words of the text, and the chunks joined by spaces give the text joined
    by spaces. *)
Theorem chunk_text_keeps_words (t : text) (max_chunk_size : nat) :
  List.concat (map split (_chunk_text t max_chunk_size)) = split t
  /\ join (_chunk_text t max_chunk_size) = join (split t).
Proof.
  destruct (chunk_text_groups t max_chunk_size)
    as (groups & -> & Hne & Hcat & _).
  split; [| rewrite join_map_join by exact Hne; now rewrite Hcat].
  assert (Hwords : Forall (Forall is_word) groups).
  { apply (groups_of_words groups (split t) Hcat).
    apply split_from_words. constructor. }
  rewrite <- Hcat. clear Hcat Hne.
  induction Hwords as [| g gs Hg _ IH]; [reflexivity |].
  simpl. now rewrite IH, (split_join g Hg).
Qed.

(** X4.  Every chunk has at most [max_chunk_size] characters, unless it is a
    single word of the text (a word is never cut). *)
Theorem chunk_text_sizes (t : text) (max_chunk_size : nat) (chunk : text) :
  In chunk (_chunk_text t max_chunk_size) ->
  (List.length chunk <= max_chunk_size)%nat \/ In chunk (split t).
Proof.
  intro Hin.
  destruct (chunk_text_groups t max_chunk_size) as (_ & _ & _ & _ & Hfit).
  rewrite Forall_forall in Hfit. exact (Hfit chunk Hin).
Qed.

Lemma chunk_text_sizes_witness :
  let t := list_ascii_of_string "indemnification and hold harmless" in
  In (list_ascii_of_string "indemnification") (_chunk_text t 12)
  /\ ((List.length (list_ascii_of_string "indemnification") <= 12)%nat
      \/ In (list_ascii_of_string "indemnification") (split t)).
Proof.
  cbv zeta.
  assert (H : In (list_ascii_of_string "indemnification")
                 (_chunk_text
                    (list_ascii_of_string "indemnification and hold harmless")
                    12)).
  { vm_compute. left. reflexivity. }
  exact (conj H (chunk_text_sizes _ 12 _ H)).
Defined.

(** The join of words starts and ends with a character that is no space. *)
Lemma join_first_char (g : list text) :
  g <> [] -> Forall is_word g ->
  exists a r, join g = a :: r /\ isspace a = false.
Proof.
  intros Hne Hg. destruct g as [| w ws]; [contradiction |].
  inversion Hg as [| ? ? [Hw Hchars] _]; subst.
  destruct w as [| a w']; [contradiction |].
  inversion Hchars; subst.
  destruct ws as [| w2 ws]; [exists a, w'; auto |].
  rewrite join_cons by discriminate. simpl. eauto.
Qed.

Lemma join_last_char (g : list text) :
  g <> [] -> Forall is_word g ->
  exists b r, rev (join g) = b :: r /\ isspace b = false.
Proof.
  intros Hne Hg. induction Hg as [| w ws [Hw Hchars] Hws IH];
    [contradiction |].
  destruct ws as [| w2 ws].
  - simpl. apply Forall_rev in Hchars.
    destruct (rev w) as [| b r] eqn:Hrev.
    + apply (f_equal (@rev ascii)) in Hrev. rewrite rev_involutive in Hrev.
      contradiction.
    + inversion Hchars; subst. eauto.
  - rewrite join_cons by discriminate.
    destruct IH as (b & r & Hrev & Hb); [discriminate |].
    rewrite rev_app_distr.
    change (rev (" "%char :: join (w2 :: ws)))
      with (rev (join (w2 :: ws)) ++ [" "%char]).
    rewrite Hrev. simpl. eauto.
Qed.

Lemma strip_noop (s : text) (a b : ascii) (r r' : text) :
  s = a :: r -> isspace a = false ->
  rev s = b :: r' -> isspace b = false ->
  strip s = s.
Proof.
  intros Hs Ha Hrev Hb. unfold strip.
  assert (Hl : lstrip s = s) by (subst s; simpl; now rewrite Ha).
  rewrite Hl, Hrev. simpl. rewrite Hb. rewrite <- Hrev.
  apply rev_involutive.
Qed.

Lemma chunk_text_usable_chunks (t : text) (max_chunk_size : nat)
  (chunk : text) :
  In chunk (_chunk_text t max_chunk_size) ->
  chunk <> [] /\ strip chunk = chunk.
Proof.
  intro Hin.
  destruct (chunk_text_groups t max_chunk_size)
    as (groups & Hchunks & Hne & Hcat & _).
  rewrite Hchunks in Hin. apply in_map_iff in Hin as (g & <- & Hg).
  assert (Hwords : Forall (Forall is_word) groups).
  { apply (groups_of_words groups (split t) Hcat).
    apply split_from_words. constructor. }
  rewrite Forall_forall in Hne, Hwords.
  destruct (join_first_char g (Hne g Hg) (Hwords g Hg)) as (a & r & Hj & Ha).
  destruct (join_last_char g (Hne g Hg) (Hwords g Hg)) as (b & r' & Hr & Hb).
  split; [rewrite Hj; discriminate |].
  exact (strip_noop (join g) a b r r' Hj Ha Hr Hb).
Qed.

(** X5.  Every chunk is usable: it is not empty and stripping leaves it as
    it is, so the test [if chunk.strip()] never drops a chunk. *)
Theorem chunk_text_usable (t : text) (max_chunk_size : nat) (chunk : text) :
  In chunk (_chunk_text t max_chunk_size) ->
  chunk <> [] /\ strip chunk = chunk.
Proof. apply chunk_text_usable_chunks. Qed.

Lemma chunk_text_usable_witness :
  let t := list_ascii_of_string "  term   and termination " in
  In (list_ascii_of_string "term and") (_chunk_text t 10)
  /\ strip (list_ascii_of_string "term and") = list_ascii_of_string "term and".
Proof.
  cbv zeta.
  assert (H : In (list_ascii_of_string "term and")
                 (_chunk_text
                    (list_ascii_of_string "  term   and termination ") 10)).
  { vm_compute. left. reflexivity. }
  exact (conj H (proj2 (chunk_text_usable _ 10 _ H))).
Defined.

Section ColbertCount.

Variable m : EmbeddingModels.

Lemma embed_chunks_all_usable (cs : list text) :
  Forall (fun c => strip c <> []) cs ->
  forall acc vs,
    embed_chunks m cs acc = Ok vs ->
    List.length vs = (List.length acc + List.length cs)%nat.
Proof.
  induction 1 as [| c cs Hc _ IH]; simpl; intros acc vs Hrun.
  - injection Hrun as <-. lia.
  - destruct (strip c); [contradiction |].
    destruct (colbert_model m c) as [v | e]; simpl in Hrun; [| discriminate].
    apply IH in Hrun. rewrite length_app in Hrun. simpl in Hrun. lia.
Qed.

Lemma colbert_embeddings_length (t : text) (vs : list (list float)) :
  get_colbert_embeddings m t = Ok vs ->
  List.length vs
  = Nat.max 1 (Nat.min K (List.length (_chunk_text (_clean_text t) 200))).
Proof.
  unfold get_colbert_embeddings.
  set (all := _chunk_text (_clean_text t) 200).
  assert (Husable : Forall (fun c => strip c <> []) (firstn K all)).
  { apply Forall_firstn, Forall_forall. intros c Hc.
    destruct (chunk_text_usable_chunks (_clean_text t) 200 c Hc) as [Hne Hs].
    now rewrite Hs. }
  remember (Nat.min K (List.length all)) as n eqn:Hn.
  destruct (embed_chunks m (firstn K all) []) as [multi | e] eqn:Hloop;
    [| discriminate].
  apply (embed_chunks_all_usable _ Husable) in Hloop.
  rewrite length_firstn, <- Hn in Hloop. cbn [List.length Nat.add] in Hloop.
  unfold bind.
  destruct multi as [| v multi'].
  - destruct (colbert_model m (_clean_text t)); [| discriminate].
    intros [= <-]. cbn [List.length] in *. lia.
  - intros [= <-]. cbn [List.length] in *. lia.
Qed.

(** X6.  When [get_colbert_embeddings] returns, the number of vectors is the
    number of chunks of the cleaned text, capped at 8, and 1 when the text has
    no chunk. *)
Theorem colbert_embeddings_count (t : text) (vs : list (list float)) :
  get_colbert_embeddings m t = Ok vs ->
  List.length vs
  = Nat.max 1 (Nat.min K (List.length (_chunk_text (_clean_text t) 200))).
Proof. apply colbert_embeddings_length. Qed.

End ColbertCount.

Lemma colbert_embeddings_count_witness :
  let m := constant_models [0.5%float] in
  let t := list_ascii_of_string "limitation of liability" in
  get_colbert_embeddings m t = Ok [ [0.5%float] ]
  /\ List.length [ [0.5%float] ]
     = Nat.max 1 (Nat.min K (List.length (_chunk_text (_clean_text t) 200))).
Proof.
  cbv zeta. split; [reflexivity |].
  exact (colbert_embeddings_count (constant_models [0.5%float])
           (list_ascii_of_string "limitation of liability")
           [ [0.5%float] ] eq_refl).
Defined.

(** * The search route and the text it lets through *)

Import Endpoints.

Lemma lstrip_blank (s : text) :
  Forall (fun c => isspace c = true) s -> lstrip s = [].
Proof.
  induction 1 as [| c s Hc _ IH]; simpl; [reflexivity |]. now rewrite Hc.
Qed.

Lemma lstrip_found (s : text) :
  lstrip s <> [] -> exists c, In c s /\ isspace c = false.
Proof.
  induction s as [| c s IH]; simpl; [contradiction |].
  destruct (isspace c) eqn:Hc.
  - intro H. destruct (IH H) as (x & Hx & Hsp). eauto.
  - intros _. eauto.
Qed.

Lemma lstrip_incl (s : text) (c : ascii) : In c (lstrip s) -> In c s.
Proof.
  induction s as [| x s IH]; simpl; [tauto |].
  destruct (isspace x); [intro H; right; now apply IH | tauto].
Qed.

Lemma strip_found (s : text) :
  strip s <> [] -> exists c, In c s /\ isspace c = false.
Proof.
  unfold strip. intro H.
  assert (Hl : lstrip (rev (lstrip s)) <> []).
  { intro Hnil. rewrite Hnil in H. now apply H. }
  destruct (lstrip_found _ Hl) as (c & Hc & Hsp).
  exists c. split; [| exact Hsp].
  apply lstrip_incl. now apply in_rev.
Qed.

Lemma split_from_none (s : text) :
  forall word,
    split_from s word = [] ->
    word = [] /\ Forall (fun c => isspace c = true) s.
Proof.
  induction s as [| c s IH]; simpl; intros word Hnone.
  - destruct word; [auto | discriminate].
  - destruct (isspace c) eqn:Hc.
    + destruct word; [| discriminate].
      destruct (IH [] Hnone) as [_ Hs]. auto.
    + destruct (IH _ Hnone) as [Hword _]. discriminate.
Qed.

Lemma split_found (s : text) (c : ascii) :
  In c s -> isspace c = false -> split s <> [].
Proof.
  intros Hc Hsp Hnone.
  destruct (split_from_none s [] Hnone) as [_ Hall].
  rewrite Forall_forall in Hall. rewrite (Hall c Hc) in Hsp. discriminate.
Qed.

(** A text with a visible character keeps a word through cleaning. *)
Lemma clean_text_has_word (q : text) :
  strip q <> [] -> split (_clean_text q) <> [].
Proof.
  intro Hq. destruct (strip_found q Hq) as (c & Hc & Hsp).
  pose proof (split_found q c Hc Hsp) as Hwords.
  unfold _clean_text. destruct q as [| x q']; [contradiction |].
  set (u := join (split (x :: q'))).
  destruct (max_chars <? List.length u)%nat.
  - apply split_found with (c := "."%char); [| reflexivity].
    apply in_or_app. right. now left.
  - unfold u. rewrite split_join; [exact Hwords |].
    apply split_from_words. constructor.
Qed.

Lemma chunk_text_nonempty (t : text) (max_chunk_size : nat) :
  split t <> [] -> _chunk_text t max_chunk_size <> [].
Proof.
  intro Hwords.
  destruct (chunk_text_groups t max_chunk_size) as (groups & -> & _ & Hcat & _).
  destruct groups; [simpl in Hcat; congruence | discriminate].
Qed.

(** X7.  The empty query never reaches the route: the schema refuses it and
    the client receives 422.  A query the schema accepts that is made of
    white space only is answered by the route with status 400, whatever the
    orchestrator would do with it. *)
Theorem blank_query_rejected (A : Type)
  (semantic_search : SearchRequest -> Result A) (request : SearchRequest) :
  (query request = [] ->
   post_search semantic_search request = Unprocessable422)
  /\ (valid_request request = true ->
      Forall (fun c => isspace c = true) (query request) ->
      post_search semantic_search request
      = Routed (HTTPException 400 "Search query cannot be empty")).
Proof.
  unfold post_search. split.
  - intro Hempty. unfold valid_request. now rewrite Hempty.
  - intros -> Hblank. unfold search_cuad_contracts, strip.
    now rewrite (lstrip_blank _ Hblank).
Qed.

Example blank_query_examples :
  post_search (fun _ => Ok 0)
    (mkSearchRequest (list_ascii_of_string "   ") None 20 0)
  = Routed (HTTPException 400 "Search query cannot be empty")
  /\ post_search (fun _ => Ok 0) (mkSearchRequest [] None 20 0)
     = Unprocessable422.
Proof. split; reflexivity. Qed.

(** X8.  When the search route returns a body, the body is the
    orchestrator's answer, and the query has at least one chunk: its
    multi-vector representation is built from chunks, not from the
    whole-text fallback. *)
Theorem accepted_query_has_chunks (A : Type)
  (semantic_search : SearchRequest -> Result A) (request : SearchRequest)
  (body : A) :
  search_cuad_contracts semantic_search request = Returned body ->
  semantic_search request = Ok body
  /\ _chunk_text (_clean_text (query request)) 200 <> []
  /\ forall m vs,
       get_colbert_embeddings m (query request) = Ok vs ->
       List.length vs
       = Nat.min K (List.length (_chunk_text (_clean_text (query request)) 200)).
Proof.
  unfold search_cuad_contracts.
  destruct (strip (query request)) as [| c r] eqn:Hstrip; [discriminate |].
  assert (Hq : strip (query request) <> []) by (rewrite Hstrip; discriminate).
  destruct (semantic_search request) as [result | e]; [| discriminate].
  intros [= <-].
  pose proof (chunk_text_nonempty _ 200 (clean_text_has_word _ Hq)) as Hchunks.
  split; [reflexivity | split; [exact Hchunks |]].
  intros m vs Hvs.
  pose proof (colbert_embeddings_length m _ vs Hvs) as Hcount.
  rewrite Hcount.
  destruct (_chunk_text (_clean_text (query request)) 200); [contradiction |].
  unfold K. cbn [List.length]. lia.
Qed.

Lemma accepted_query_has_chunks_witness :
  let request :=
    mkSearchRequest (list_ascii_of_string " non-compete clause ") None 20 0 in
  search_cuad_contracts (fun _ => Ok 3) request = Returned 3
  /\ _chunk_text (_clean_text (query request)) 200 <> [].
Proof.
  cbv zeta. split; [reflexivity |].
  exact (proj1 (proj2 (accepted_query_has_chunks Z (fun _ => Ok 3)
           (mkSearchRequest (list_ascii_of_string " non-compete clause ")
              None 20 0) 3 eq_refl))).
Defined.

(** * The byte vector and the batch interface *)

Lemma quantize_nonempty (dense : list float) (bs : list (option Z)) :
  quantize dense = Ok bs ->
  dense <> [] /\ List.length bs = List.length dense.
Proof.
  destruct dense as [| x xs]; [discriminate |].
  unfold quantize, normalize, np_min, np_max, bind.
  intros [= <-]. split; [discriminate |].
  simpl. now rewrite !length_map.
Qed.

(** X9.  Quantisation raises exactly on the empty vector; otherwise it
    returns one component per component of the dense vector, and every
    component that has a value is a byte. *)
Theorem quantize_shape (dense : list float) :
  (dense = [] -> quantize dense = Raise (zero_size "minimum"))
  /\ (dense <> [] ->
      exists bs,
        quantize dense = Ok bs
        /\ List.length bs = List.length dense
        /\ Forall (fun b => forall z, b = Some z -> 0 <= z <= 255) bs).
Proof.
  split; [intros ->; reflexivity |].
  intro Hne. destruct dense as [| x xs]; [contradiction |].
  unfold quantize, normalize, np_min, np_max, bind.
  eexists. split; [reflexivity |].
  split; [simpl; now rewrite !length_map |].
  apply Forall_forall. intros b Hb z ->.
  apply in_map_iff in Hb as (y & Hy & _).
  exact (astype_uint8_range _ _ Hy).
Qed.

Lemma embed_all_length (model : text -> Result (list float))
  (texts : list text) :
  forall vs, embed_all model texts = Ok vs ->
             List.length vs = List.length texts.
Proof.
  induction texts as [| t texts IH]; simpl; intros vs Hrun.
  - now injection Hrun as <-.
  - destruct (model t); simpl in Hrun; [| discriminate].
    destruct (embed_all model texts); simpl in Hrun; [| discriminate].
    injection Hrun as <-. simpl. f_equal. now apply IH.
Qed.

(** X10.  [get_batch_embeddings] answers with one vector per text, and only
    for the types dense, rerank and colbert; any other type, "byte" included,
    raises the ValueError naming it, without a call to a model. *)
Theorem batch_embeddings_shape (m : EmbeddingModels) (texts : list text)
  (embedding_type : string) :
  (forall vs,
      get_batch_embeddings m texts embedding_type = Ok vs ->
      List.length vs = List.length texts
      /\ In embedding_type ["dense"; "rerank"; "colbert"])
  /\ (~ In embedding_type ["dense"; "rerank"; "colbert"] ->
      get_batch_embeddings m texts embedding_type
      = Raise (mkExc ValueError
                 ("Unknown embedding type: " ++ embedding_type))).
Proof.
  unfold get_batch_embeddings.
  destruct (String.eqb embedding_type "dense") eqn:Hd;
    [| destruct (String.eqb embedding_type "rerank") eqn:Hr;
       [| destruct (String.eqb embedding_type "colbert") eqn:Hc]];
    try apply String.eqb_eq in Hd; try apply String.eqb_eq in Hr;
    try apply String.eqb_eq in Hc; subst.
  1-3: split;
    [ intros vs Hvs; apply embed_all_length in Hvs;
      rewrite length_map in Hvs; split; [exact Hvs | simpl; tauto]
    | intro Hnot; exfalso; apply Hnot; simpl; tauto ].
  split; [discriminate | reflexivity].
Qed.

(** X11.  A bundle is returned only complete: it holds the four
    representations under their keys, in the order dense, rerank, colbert,
    byte; the dense vector is not empty, the byte vector has its length, and
    the multi-vector has between 1 and 8 vectors. *)
Theorem all_embeddings_bundle (m : EmbeddingModels) (t : text)
  (bundle : Dict Representation) :
  get_all_embeddings m t = Ok bundle ->
  exists dense rerank colbert byte,
    bundle = [ ("dense", RDense dense); ("rerank", RDense rerank);
               ("colbert", RMulti colbert); ("byte", RByte byte) ]
    /\ dense_model m (_clean_text t) = Ok dense
    /\ dense <> []
    /\ List.length byte = List.length dense
    /\ (1 <= List.length colbert <= K)%nat.
Proof.
  unfold get_all_embeddings, get_byte_vector, get_dense_embedding,
    get_rerank_embedding, bind.
  destruct (dense_model m (_clean_text t)) as [dense | e] eqn:Hdense;
    [| discriminate].
  destruct (rerank_model m (_clean_text t)) as [rerank | e]; [| discriminate].
  destruct (get_colbert_embeddings m t) as [colbert | e] eqn:Hcolbert;
    [| discriminate].
  destruct (quantize dense) as [byte | e] eqn:Hbyte; [| discriminate].
  intros [= <-].
  exists dense, rerank, colbert, byte.
  destruct (quantize_nonempty dense byte Hbyte) as [Hne Hlen].
  apply colbert_embeddings_length in Hcolbert.
  repeat split; try assumption; unfold K in *; lia.
Qed.

Lemma all_embeddings_bundle_witness :
  let m := constant_models [0%float; 0.5%float; 1%float] in
  let t := list_ascii_of_string "governing law" in
  let bundle :=
    [ ("dense", RDense [0%float; 0.5%float; 1%float]);
      ("rerank", RDense [0%float; 0.5%float; 1%float]);
      ("colbert", RMulti [ [0%float; 0.5%float; 1%float] ]);
      ("byte", RByte [Some 0; Some 127; Some 255]) ] in
  get_all_embeddings m t = Ok bundle
  /\ exists dense rerank colbert byte,
       bundle = [ ("dense", RDense dense); ("rerank", RDense rerank);
                  ("colbert", RMulti colbert); ("byte", RByte byte) ]
       /\ dense_model m (_clean_text t) = Ok dense
       /\ dense <> []
       /\ List.length byte = List.length dense
       /\ (1 <= List.length colbert <= K)%nat.
Proof.
  cbv zeta.
  assert (H : get_all_embeddings
                (constant_models [0%float; 0.5%float; 1%float])
                (list_ascii_of_string "governing law")
              = Ok [ ("dense", RDense [0%float; 0.5%float; 1%float]);
                     ("rerank", RDense [0%float; 0.5%float; 1%float]);
                     ("colbert", RMulti [ [0%float; 0.5%float; 1%float] ]);
                     ("byte", RByte [Some 0; Some 127; Some 255]) ]).
  { vm_compute. reflexivity. }
  exact (conj H (all_embeddings_bundle _ _ _ H)).
Defined.

(** * The search service as a whole *)

(** X12.  [advanced_search] never raises.  When the filter does not compile
    it returns the empty list and the index is not asked.  Otherwise its
    results are the formatted hits of the multi-stage query when that
    returns; when it raises, they are the formatted hits of one single-stage
    query with a vector of the bundle, the compiled filter, the caller's
    limit and the score threshold, or the empty list. *)
Theorem advanced_search_outcomes (float_of_str : string -> option float)
  (client : QdrantClient) (query_embeddings : QueryEmbeddings)
  (filters : option FilterSpec) (limit prefetch_limit rerank_limit : Z) :
  exists results,
    advanced_search float_of_str client query_embeddings filters limit
                    prefetch_limit rerank_limit = Ok results
    /\ ((exists e,
           compile float_of_str filters = Raise e
           /\ results = []
           /\ forall other_client,
                advanced_search float_of_str other_client query_embeddings
                                filters limit prefetch_limit rerank_limit
                = Ok [])
        \/ (exists qdrant_filter,
              compile float_of_str filters = Ok qdrant_filter
              /\ ((exists hits,
                     query_points client
                       (funnel_request query_embeddings qdrant_filter limit
                          prefetch_limit rerank_limit) = Ok hits
                     /\ results = format_results hits)
                  \/ (exists e,
                        query_points client
                          (funnel_request query_embeddings qdrant_filter limit
                             prefetch_limit rerank_limit) = Raise e
                        /\ (results = []
                            \/ exists query_vector hits,
                                 In query_vector (values query_embeddings)
                                 /\ search client
                                      (Models.mkSearchRequest collection_name
                                         query_vector qdrant_filter limit
                                         (Some settings.similarity_threshold)
                                         true) = Ok hits
                                 /\ results = format_results hits))))).
Proof.
  unfold advanced_search, funnel_body, _fallback_search, fallback_body, bind.
  destruct (compile float_of_str filters) as [qdrant_filter | e0]; simpl.
  - destruct (query_points client _) as [hits | e] eqn:Hfunnel; simpl.
    + exists (format_results hits). split; [reflexivity |].
      right. exists qdrant_filter. split; [reflexivity |]. left. eauto.
    + destruct (fallback_query_vector query_embeddings) as [v | e'] eqn:Hv;
        simpl.
      * destruct (search client _) as [hits | e''] eqn:Hsearch; simpl.
        -- exists (format_results hits). split; [reflexivity |].
           right. exists qdrant_filter. split; [reflexivity |].
           right. exists e. split; [exact Hfunnel |]. right.
           exists v, hits.
           split; [now apply fallback_query_vector_present |].
           split; [exact Hsearch | reflexivity].
        -- exists []. split; [reflexivity |].
           right. exists qdrant_filter. split; [reflexivity |].
           right. eauto.
      * exists []. split; [reflexivity |].
        right. exists qdrant_filter. split; [reflexivity |].
        right. eauto.
  - exists []. split; [reflexivity |].
    left. exists e0. split; [reflexivity | split; reflexivity].
Qed.

Lemma field_conditions_key (filters : FilterSpec) (fs : list string) :
  NoDup fs ->
  NoDup (map key (flat_map (field_conditions filters) fs))
  /\ incl (map key (flat_map (field_conditions filters) fs)) fs
  /\ (List.length (flat_map (field_conditions filters) fs)
      <= List.length fs)%nat.
Proof.
  induction 1 as [| f fs Hf Hfs (IHn & IHi & IHl)]; simpl.
  - repeat split; [constructor | intros x [] | lia].
  - assert (Hone : field_conditions filters f = []
                   \/ exists c, field_conditions filters f = [c] /\ key c = f).
    { destruct (field_conditions filters f) as [| c cs] eqn:Hfc; [now left |].
      right.
      destruct (field_conditions_inv filters f c) as (vs & _ & _ & Hc);
        [rewrite Hfc; now left |].
      assert (cs = []).
      { revert Hfc. unfold field_conditions.
        destruct (get_truthy filters f); [| discriminate].
        destruct (get filters f) as [[| | l] |]; try discriminate.
        destruct (0 <? List.length l)%nat; [| discriminate].
        destruct (List.length l =? 1)%nat; now intros [= _ <-]. }
      subst cs. exists c. split; [reflexivity | now rewrite Hc]. }
    destruct Hone as [-> | (c & -> & Hk)]; simpl.
    + repeat split; [exact IHn | intros x Hx; right; now apply IHi | lia].
    + rewrite Hk. repeat split.
      * constructor; [intro Hin; apply Hf; now apply IHi | exact IHn].
      * intros x [<- | Hx]; [now left | right; now apply IHi].
      * lia.
Qed.

Lemma filterable_fields_distinct : NoDup filterable_fields.
Proof.
  unfold filterable_fields.
  repeat (constructor; [simpl; intuition discriminate |]). constructor.
Qed.

(** X13.  A filter object the compiler returns has at least one and at most
    ten conditions, no two of them on the same key, and every key is one of
    the fields [_create_filter_indexes] asks an index for. *)
Theorem compiled_filter_shape (float_of_str : string -> option float)
  (filters : option FilterSpec) (f : Filter) :
  compile float_of_str filters = Ok (Some f) ->
  must f <> []
  /\ (List.length (must f) <= 10)%nat
  /\ NoDup (map key (must f))
  /\ Forall (fun c => In (key c) filter_fields) (must f).
Proof.
  intro Hc. split; [exact (compile_never_vacuous float_of_str filters f Hc) |].
  assert (Hb : exists d date,
             date_conditions float_of_str d = Ok date
             /\ f = mkFilter (categorical d ++ date)).
  { destruct filters as [[| kv d] |]; simpl in Hc; try discriminate.
    rewrite build_filter_outcome in Hc.
    destruct (date_conditions float_of_str (kv :: d)) as [date | e] eqn:Hd;
      [| discriminate].
    unfold filter_of in Hc.
    destruct (categorical (kv :: d) ++ date) eqn:He; [discriminate |].
    injection Hc as <-. exists (kv :: d), date. now rewrite He. }
  destruct Hb as (d & date & Hdate0 & ->). simpl. unfold categorical.
  destruct (field_conditions_key d filterable_fields filterable_fields_distinct)
    as (Hn & Hi & Hl).
  assert (Hdate : date = []
                  \/ exists c, date = [c] /\ key c = "date_filed").
  { rewrite date_conditions_outcome in Hdate0.
    destruct (get_truthy d "date_from" || get_truthy d "date_to");
      [| injection Hdate0 as <-; now left].
    destruct (range_bound float_of_str (date_bound d "date_from"));
      [| discriminate].
    destruct (range_bound float_of_str (date_bound d "date_to"));
      [| discriminate].
    injection Hdate0 as <-. right. eauto. }
  assert (Hfresh : ~ In "date_filed" filterable_fields).
  { unfold filterable_fields. simpl. intuition discriminate. }
  assert (Hsub : incl filterable_fields filter_fields).
  { unfold filterable_fields, filter_fields. intros x Hx. simpl in *. tauto. }
  split; [| split].
  - rewrite length_app.
    change (List.length filterable_fields) with 9%nat in Hl.
    destruct Hdate as [-> | (c & -> & _)]; cbn [List.length]; lia.
  - rewrite map_app.
    destruct Hdate as [-> | (c & -> & Hk)]; cbn [map].
    + now rewrite app_nil_r.
    + apply NoDup_app; [exact Hn | repeat constructor; intros [] |].
      intros a Ha [<- | []]. rewrite Hk in Ha. apply Hfresh. now apply Hi.
  - apply Forall_app. split.
    + apply Forall_forall. intros c Hin. apply Hsub, Hi.
      now apply in_map.
    + destruct Hdate as [-> | (c & -> & Hk)]; constructor; [| constructor].
      rewrite Hk. unfold filter_fields. simpl. tauto.
Qed.

Lemma compiled_filter_shape_witness :
  let filters :=
    Some [ ("jurisdiction", FList ["California"]);
           ("risk_level", FList ["High"; "Medium"]) ] in
  exists f,
    compile plain_number filters = Ok (Some f)
    /\ must f <> []
    /\ (List.length (must f) <= 10)%nat
    /\ NoDup (map key (must f))
    /\ Forall (fun c => In (key c) filter_fields) (must f).
Proof.
  cbv zeta. eexists. split; [reflexivity |].
  exact (compiled_filter_shape plain_number
           (Some [ ("jurisdiction", FList ["California"]);
                   ("risk_level", FList ["High"; "Medium"]) ]) _ eq_refl).
Defined.

(** * Health and statistics *)

(** X14.  The health answer reads the index as "healthy" exactly when the
    collection-info call returns with status "green"; any other status, and
    any failure of the call, reads "unhealthy". *)
Theorem health_check_index_status (client : QdrantClient) (now : Z) :
  (Routes.qdrant_status (Routes.health_check client now) = "healthy"
   <-> exists info,
         get_collection client collection_name = Ok info
         /\ ci_status info = "green")
  /\ (Routes.qdrant_status (Routes.health_check client now) = "healthy"
      \/ Routes.qdrant_status (Routes.health_check client now) = "unhealthy").
Proof.
  unfold Routes.health_check, get_collection_info, try_except, bind.
  destruct (get_collection client collection_name) as [info | e];
    unfold Routes.status_is_green; simpl.
  - destruct (String.eqb (ci_status info) "green") eqn:Hgreen; simpl.
    + apply String.eqb_eq in Hgreen. split; [| now left].
      split; [eauto | reflexivity].
    + apply String.eqb_neq in Hgreen. split; [| now right].
      split; [discriminate |].
      intros (info' & [= <-] & Hg). contradiction.
  - split; [| now right].
    split; [discriminate | intros (info & Hinfo & _); discriminate].
Qed.

(** X15.  The statistics route never answers with an error: when the
    collection-info call fails it reports the status "error" with zero
    contracts and vectors and an empty configuration, otherwise the figures
    of the collection. *)
Theorem stats_never_fail (client : QdrantClient) :
  exists stats,
    get_cuad_stats client = Returned stats
    /\ (forall e,
          get_collection client collection_name = Raise e ->
          stats = mkStats (IStr "error") (IInt 0) (IInt 0) None)
    /\ (forall info,
          get_collection client collection_name = Ok info ->
          stats = mkStats (IStr (ci_status info))
                    (IInt (ci_points_count info))
                    (IInt (ci_vectors_count info))
                    (Some (IConfig vector_configs "COSINE"))).
Proof.
  unfold get_cuad_stats, get_collection_info, try_except, bind.
  destruct (get_collection client collection_name) as [info | e]; simpl;
    eexists; (split; [reflexivity |]); split; intros x Hx;
    try discriminate; try reflexivity.
  now injection Hx as <-.
Qed.

(** * Collection set-up *)

(** Every field is asked an index for, whichever requests fail. *)
Lemma create_filter_indexes_calls (admin : QdrantAdmin) :
  _create_filter_indexes admin
  = map (fun field => CallCreatePayloadIndex collection_name field "keyword")
        filter_fields.
Proof.
  unfold _create_filter_indexes.
  assert (Hloop : forall fs init,
    fold_left
      (fun calls field =>
         match create_payload_index admin collection_name field "keyword" with
         | Ok _ | Raise _ =>
             calls ++ [CallCreatePayloadIndex collection_name field "keyword"]
         end) fs init
    = init ++ map (fun field =>
                     CallCreatePayloadIndex collection_name field "keyword") fs).
  { induction fs as [| f fs IH]; intro init; simpl.
    - now rewrite app_nil_r.
    - destruct (create_payload_index admin collection_name f "keyword");
        rewrite IH, <- app_assoc; reflexivity. }
  apply (Hloop filter_fields []).
Qed.

(** X16.  [initialize_collection] leaves an existing collection alone: it
    only lists the collections.  For a missing one it creates the collection
    with the four named vectors and then asks for the twelve payload indexes,
    and it succeeds even when index requests fail.  A failure of the listing
    or of the creation is raised, and no index is asked for. *)
Theorem initialize_collection_calls (admin : QdrantAdmin) :
  (forall names,
      get_collections admin = Ok names -> In collection_name names ->
      initialize_collection admin = ([CallGetCollections], Ok tt))
  /\ (forall names u,
        get_collections admin = Ok names -> ~ In collection_name names ->
        create_collection admin collection_name vectors_config = Ok u ->
        initialize_collection admin
        = (CallGetCollections
             :: CallCreateCollection collection_name vectors_config
             :: map (fun field =>
                       CallCreatePayloadIndex collection_name field "keyword")
                    filter_fields,
           Ok tt))
  /\ (forall e,
        get_collections admin = Raise e ->
        initialize_collection admin = ([CallGetCollections], Raise e))
  /\ (forall names e,
        get_collections admin = Ok names -> ~ In collection_name names ->
        create_collection admin collection_name vectors_config = Raise e ->
        initialize_collection admin
        = ([CallGetCollections;
            CallCreateCollection collection_name vectors_config], Raise e)).
Proof.
  assert (Hexists : forall names,
             existsb (String.eqb collection_name) names = true
             <-> In collection_name names).
  { intro names. rewrite existsb_exists. split.
    - intros (x & Hx & Heq). apply String.eqb_eq in Heq. now subst.
    - intro Hin. exists collection_name. split; [exact Hin |].
      apply String.eqb_refl. }
  unfold initialize_collection.
  repeat split.
  - intros names -> Hin. apply Hexists in Hin. now rewrite Hin.
  - intros names u -> Hout Hcreate.
    destruct (existsb (String.eqb collection_name) names) eqn:Hfound;
      [apply Hexists in Hfound; contradiction |].
    rewrite Hcreate. now rewrite create_filter_indexes_calls.
  - now intros e ->.
  - intros names e -> Hout Hcreate.
    destruct (existsb (String.eqb collection_name) names) eqn:Hfound;
      [apply Hexists in Hfound; contradiction |].
    now rewrite Hcreate.
Qed.

Example initialize_on_empty_server :
  initialize_collection picky_admin
  = (CallGetCollections
       :: CallCreateCollection "cuad_contracts_v2" vectors_config
       :: map (fun field =>
                 CallCreatePayloadIndex "cuad_contracts_v2" field "keyword")
              filter_fields,
     Ok tt).
Proof. reflexivity. Qed.

(** * Ingestion *)

Section Ingestion.

Variable uuid4 : nat -> string.
Variable embeddings : Dict (list Embedding).

Lemma points_from_firstn (n : nat) :
  forall k l,
    points_from uuid4 embeddings k (firstn n l)
    = firstn n (points_from uuid4 embeddings k l).
Proof.
  induction n as [| n IH]; intros k [| x l]; simpl; try reflexivity.
  f_equal. apply IH.
Qed.

Lemma points_from_skipn (i : nat) :
  forall k l,
    points_from uuid4 embeddings (k + i) (skipn i l)
    = skipn i (points_from uuid4 embeddings k l).
Proof.
  induction i as [| i IH]; intros k l.
  - now rewrite Nat.add_0_r.
  - destruct l as [| x l]; [reflexivity |].
    simpl skipn. rewrite Nat.add_succ_r. apply (IH (S k)).
Qed.

Lemma points_from_length (l : list Payload) :
  forall k, List.length (points_from uuid4 embeddings k l) = List.length l.
Proof. induction l as [| x l IH]; intro k; simpl; [| rewrite IH]; reflexivity. Qed.

(** A batch that is built holds the points of its cases. *)
Lemma batch_points_built (l : list Payload) :
  forall k points,
    batch_points uuid4 embeddings k l = Ok points ->
    points = points_from uuid4 embeddings k l.
Proof.
  induction l as [| case l IH]; simpl; intros k points Hbuilt.
  - now injection Hbuilt as <-.
  - unfold build_point in Hbuilt.
    destruct (valid_point_id (case_id_of uuid4 k case)); [| discriminate].
    simpl in Hbuilt.
    destruct (batch_points uuid4 embeddings (S k) l) as [ps | e] eqn:Hrest;
      [| discriminate].
    injection Hbuilt as <-. f_equal. now apply IH.
Qed.

(** A batch that is not built holds a case whose id is neither int nor str. *)
Lemma batch_points_refused (l : list Payload) :
  forall k e,
    batch_points uuid4 embeddings k l = Raise e ->
    e = point_id_error
    /\ exists case v,
         In case l /\ get case "id" = Some v /\ valid_point_id v = false.
Proof.
  induction l as [| case l IH]; simpl; intros k e Hrefused; [discriminate |].
  unfold build_point in Hrefused.
  destruct (valid_point_id (case_id_of uuid4 k case)) eqn:Hid.
  - simpl in Hrefused.
    destruct (batch_points uuid4 embeddings (S k) l) as [ps | e'] eqn:Hrest;
      [discriminate |].
    injection Hrefused as <-.
    destruct (IH (S k) e' Hrest) as (He & case' & v & Hin & Hget & Hv).
    split; [exact He |]. exists case', v. auto.
  - injection Hrefused as <-. split; [reflexivity |].
    unfold case_id_of in Hid.
    destruct (get case "id") as [v |] eqn:Hget; [| discriminate].
    exists case, v. auto.
Qed.

Lemma firstn_add (A : Type) (n m : nat) :
  forall l : list A, firstn (n + m) l = firstn n l ++ firstn m (skipn n l).
Proof.
  induction n as [| n IH]; intros [| x l]; simpl;
    try reflexivity; [now rewrite firstn_nil | f_equal; apply IH].
Qed.

Lemma in_slice (A : Type) (n m : nat) (l : list A) (x : A) :
  In x (firstn n (skipn m l)) -> In x l.
Proof.
  intro Hin.
  rewrite <- (firstn_skipn m l). apply in_or_app. right.
  rewrite <- (firstn_skipn n (skipn m l)). apply in_or_app. now left.
Qed.

Variable admin : QdrantAdmin.
Variable cases : list Payload.

(** The batches sent are consecutive slices of the points of all cases; the
    loop ends at the first batch that is not built or not accepted. *)
Lemma upload_batches_sent (c : nat) :
  forall a calls outcome,
    upload_batches admin uuid4 embeddings cases
      (map (fun b => (b * batch_size)%nat) (seq a c)) = (calls, outcome) ->
    exists c',
      (c' <= c)%nat
      /\ sent_points calls
         = firstn (c' * batch_size)
                  (skipn (a * batch_size) (all_points uuid4 embeddings cases))
      /\ (outcome = Ok tt -> c' = c /\ accepted_upserts admin calls)
      /\ Forall (fun call =>
                   exists points,
                     call = CallUpsert collection_name points
                     /\ (List.length points <= batch_size)%nat) calls
      /\ (forall e, outcome = Raise e ->
            (exists before points,
               calls = before ++ [CallUpsert collection_name points]
               /\ accepted_upserts admin before
               /\ upsert admin collection_name points = Raise e)
            \/ (e = point_id_error
                /\ accepted_upserts admin calls
                /\ exists case v,
                     In case cases /\ get case "id" = Some v
                     /\ valid_point_id v = false)).
Proof.
  induction c as [| c IH]; intros a calls outcome;
    cbn [seq map upload_batches].
  - intros [= <- <-]. exists 0%nat.
    split; [lia | split; [reflexivity |]].
    split; [intros _; split; [reflexivity | constructor] |].
    split; [constructor | discriminate].
  - destruct (batch_points uuid4 embeddings (a * batch_size)
                (firstn batch_size (skipn (a * batch_size) cases)))
      as [points | e] eqn:Hbuilt.
    + assert (Hslice : points
                = firstn batch_size
                    (skipn (a * batch_size)
                       (all_points uuid4 embeddings cases))).
      { rewrite (batch_points_built _ _ _ Hbuilt). unfold all_points.
        rewrite points_from_firstn.
        now rewrite <- (points_from_skipn (a * batch_size) 0 cases). }
      assert (Hsize : (List.length points <= batch_size)%nat).
      { rewrite Hslice. apply firstn_le_length. }
      destruct (upsert admin collection_name points) as [u | e] eqn:Hup.
      * destruct (upload_batches admin uuid4 embeddings cases
                    (map (fun b => (b * batch_size)%nat) (seq (S a) c)))
          as [calls1 outcome1] eqn:Hrest.
        intros [= <- <-].
        destruct (IH (S a) calls1 outcome1 Hrest)
          as (c1 & Hle & Hsent & Hok & Hsizes & Hfail).
        assert (Hthis : exists points0,
                  CallUpsert collection_name points
                  = CallUpsert collection_name points0
                  /\ exists u0, upsert admin collection_name points0 = Ok u0)
          by eauto.
        exists (S c1). split; [lia |].
        split.
        { simpl sent_points. rewrite Hsent, Hslice.
          change (S a * batch_size)%nat with (batch_size + a * batch_size)%nat.
          rewrite <- skipn_skipn.
          change (S c1 * batch_size)%nat with (batch_size + c1 * batch_size)%nat.
          now rewrite firstn_add. }
        split.
        { intro Hdone. destruct (Hok Hdone) as [-> Hacc].
          split; [reflexivity | now constructor]. }
        split; [constructor; [eauto | exact Hsizes] |].
        intros e He.
        destruct (Hfail e He)
          as [(before & pts & -> & Hacc & Hraise) | (-> & Hacc & Hcase)].
        -- left. exists (CallUpsert collection_name points :: before), pts.
           split; [reflexivity | split; [now constructor | exact Hraise]].
        -- right. split; [reflexivity | split; [now constructor | exact Hcase]].
      * intros [= <- <-]. exists 1%nat. split; [lia |].
        split.
        { simpl sent_points. rewrite app_nil_r, Hslice.
          now rewrite Nat.mul_1_l. }
        split; [discriminate |].
        split; [constructor; [eauto | constructor] |].
        intros e' [= <-]. left. exists [], points.
        split; [reflexivity | split; [constructor | exact Hup]].
    + intros [= <- <-]. exists 0%nat. split; [lia |].
      split; [reflexivity |].
      split; [discriminate |].
      split; [constructor |].
      intros e' [= <-]. right.
      destruct (batch_points_refused _ _ _ Hbuilt)
        as (-> & case & v & Hin & Hget & Hv).
      split; [reflexivity | split; [constructor |]].
      exists case, v. split; [| now split].
      exact (in_slice _ _ _ _ _ Hin).
Qed.

End Ingestion.

Lemma batches_cover (n : nat) :
  (n <= (n + (batch_size - 1)) / batch_size * batch_size)%nat.
Proof.
  unfold batch_size. change (10 - 1)%nat with 9%nat.
  pose proof (Nat.div_mod_eq (n + 9) 10) as Hdiv.
  pose proof (Nat.mod_upper_bound (n + 9) 10) as Hmod.
  lia.
Qed.

(** X17.  [add_multi_vector_points] sends the points of the cases in their
    order, in batches of at most ten, each to the collection; what it has
    sent is always a prefix of the points of all cases.  When it returns,
    every point was sent and every batch accepted.  When it raises, no batch
    follows: either the exception is that of the last batch sent, refused by
    the server after the earlier ones were accepted, or every batch sent was
    accepted and the exception is the validation error for a case whose id is
    neither an int nor a str, raised before its batch is sent. *)
Theorem add_points_batches (admin : QdrantAdmin) (uuid4 : nat -> string)
  (cases : list Payload) (embeddings : Dict (list Embedding))
  (calls : list Call) (outcome : Result unit) :
  add_multi_vector_points admin uuid4 cases embeddings = (calls, outcome) ->
  (exists n,
      sent_points calls = firstn n (all_points uuid4 embeddings cases))
  /\ (outcome = Ok tt ->
      sent_points calls = all_points uuid4 embeddings cases
      /\ accepted_upserts admin calls)
  /\ Forall (fun call =>
               exists points,
                 call = CallUpsert collection_name points
                 /\ (List.length points <= 10)%nat) calls
  /\ (forall e, outcome = Raise e ->
        (exists before points,
           calls = before ++ [CallUpsert collection_name points]
           /\ accepted_upserts admin before
           /\ upsert admin collection_name points = Raise e)
        \/ (e = point_id_error
            /\ accepted_upserts admin calls
            /\ exists case v,
                 In case cases /\ get case "id" = Some v
                 /\ valid_point_id v = false)).
Proof.
  unfold add_multi_vector_points, batch_starts. intro Hrun.
  destruct (upload_batches_sent uuid4 embeddings admin cases _ 0 calls outcome
              Hrun) as (c' & Hle & Hsent & Hok & Hsizes & Hfail).
  change (skipn (0 * batch_size) (all_points uuid4 embeddings cases))
    with (all_points uuid4 embeddings cases) in Hsent.
  split; [eauto |].
  split; [| split; [exact Hsizes | exact Hfail]].
  intro Hdone. destruct (Hok Hdone) as [-> Hacc].
  split; [| exact Hacc]. rewrite Hsent.
  apply firstn_all2. unfold all_points. rewrite points_from_length.
  apply batches_cover.
Qed.

Lemma add_points_batches_witness :
  let run :=
    add_multi_vector_points picky_admin (fun _ => "generated")
      (numbered_cases 25) [ ("dense", [Floats [0.5%float]]) ] in
  snd run = Ok tt
  /\ map (fun call => match call with
                      | CallUpsert _ points => List.length points
                      | _ => 0%nat
                      end) (fst run) = [10; 10; 5]%nat
  /\ sent_points (fst run)
     = all_points (fun _ => "generated")
         [ ("dense", [Floats [0.5%float]]) ] (numbered_cases 25).
Proof.
  cbv zeta. split; [reflexivity | split; [reflexivity |]].
  refine (proj1 (proj1 (proj2 (add_points_batches picky_admin
                                 (fun _ => "generated") (numbered_cases 25)
                                 [ ("dense", [Floats [0.5%float]]) ] _ _
                                 (surjective_pairing _))) _)).
  reflexivity.
Defined.

(** A refused batch ends the upload: the third batch is never sent. *)
Example upload_stops_at_refused_batch :
  let cases :=
    map (fun k => [ ("id", PStr ("c" ++ k)) ])
        [ "1"; "2"; "3"; "4"; "5"; "6"; "7"; "8"; "9"; "10"; "11"; "12";
          "13"; "14"; "15"; "16"; "17"; "18"; "19"; "20"; "21" ] in
  let run := add_multi_vector_points picky_admin (fun _ => "generated")
               cases [] in
  snd run = Raise index_error
  /\ List.length (fst run) = 2%nat
  /\ List.length (sent_points (fst run)) = 20%nat.
Proof. cbv zeta. repeat split. Qed.

(** A case whose id is [None] is refused when its point is built: nothing is
    sent for its batch, and the batch before it stays sent. *)
Example upload_stops_at_refused_id :
  let cases := numbered_cases 11 ++ [ [ ("id", PNone) ] ] in
  add_multi_vector_points picky_admin (fun _ => "generated") [ [ ("id", PNone) ] ] []
    = ([], Raise point_id_error)
  /\ snd (add_multi_vector_points picky_admin (fun _ => "generated") cases [])
     = Raise point_id_error
  /\ List.length
       (sent_points
          (fst (add_multi_vector_points picky_admin (fun _ => "generated")
                  cases []))) = 10%nat.
Proof. cbv zeta. repeat split. Qed.

(** Scenario B: a query of 5000 characters is cut to the budget. *)
Example clean_text_scenario_b :
  List.length (_clean_text (repeat "a"%char 5000)) = 2003%nat.
Proof. vm_compute. reflexivity. Qed.
